(** * CAPM web application: the quantitative core

    A shallow embedding of the functions of [CAPM_function.py]
    ([interactive_plot], [normalize], [daily_return], [calculate_beta]) and
    of the script [CAPM_return.py] ([prepare_yfinance_data],
    [get_risk_interpretation], [get_recommendations], the loading and
    merging of the data, the expected-return loop, the portfolio summary),
    with the properties the specification states about them.

    Numbers.  The program computes on IEEE-754 doubles (Python floats,
    numpy [float64]).  They are modelled by [num]: a finite value is an
    exact rational, and the three special values [+inf], [-inf] and [NaN]
    behave as IEEE-754 prescribes (NaN is absorbing and compares false with
    everything, [x / 0] is an infinity or NaN, [inf - inf] is NaN).  Rounding
    and overflow of finite values and the sign of zero are not modelled.
    Where the program decides on a double as such, the decision is
    modelled on its exact value: the literals [0.8] and [1.2] of the risk
    bands are the doubles Python reads from them, and the rank cutoff
    [rcond = len(x) * eps] of [np.polyfit] is part of [polyfit1].

    Failures.  A Python exception is an outcome [Raises name] carrying the
    name of the exception class.

    Libraries.  pandas, numpy and plotly are not part of the program; the
    operations it calls ([pct_change], [fillna], [mean], [polyfit],
    [merge], [px.line]) are modelled by what they compute, and what depends
    on the installed version or on the values read as dates is a parameter
    ([Libraries]). *)

From Stdlib Require Import QArith Qcanon Qround Lqa Ascii.
From stdpp Require Import base numbers list strings sets pretty.

Local Open Scope string_scope.
Local Open Scope list_scope.
Local Open Scope Qc_scope.

(** ** Numbers *)

Module Num.

Inductive num : Type :=
  | Fin (q : Qc)
  | PInf
  | NInf
  | NaN.

#[global] Instance num_eq_dec : EqDecision num.
Proof. solve_decision. Defined.

(** The rational [n / d]. *)
Definition qc (n : Z) (d : positive) : Qc := Q2Qc (n # d).

(** A Python [int] (a literal, a [len]) used where a float is expected. *)
Definition of_Z (n : Z) : num := Fin (Qc_of_Z n).
Definition of_nat (n : nat) : num := of_Z (Z.of_nat n).

(** The infinity of the sign of [q]; NaN when [q] is zero: the value of
    [q / 0] and of [q * inf]. *)
Definition signed_inf (q : Qc) : num :=
  match q ?= 0 with
  | Gt => PInf
  | Lt => NInf
  | Eq => NaN
  end.

Definition neg (x : num) : num :=
  match x with
  | Fin q => Fin (- q)
  | PInf => NInf
  | NInf => PInf
  | NaN => NaN
  end.

Definition add (x y : num) : num :=
  match x, y with
  | NaN, _ | _, NaN => NaN
  | Fin p, Fin q => Fin (p + q)
  | PInf, NInf | NInf, PInf => NaN
  | PInf, _ | _, PInf => PInf
  | NInf, _ | _, NInf => NInf
  end.

Definition sub (x y : num) : num := add x (neg y).

Definition mul (x y : num) : num :=
  match x, y with
  | NaN, _ | _, NaN => NaN
  | Fin p, Fin q => Fin (p * q)
  | Fin p, PInf | PInf, Fin p => signed_inf p
  | Fin p, NInf | NInf, Fin p => signed_inf (- p)
  | PInf, PInf | NInf, NInf => PInf
  | PInf, NInf | NInf, PInf => NInf
  end.

(** numpy's true division: no exception, a zero divisor gives an infinity
    or NaN. *)
Definition div (x y : num) : num :=
  match x, y with
  | NaN, _ | _, NaN => NaN
  | Fin p, Fin q => if decide (q = 0) then signed_inf p else Fin (p / q)
  | Fin _, PInf | Fin _, NInf => Fin 0
  | PInf, Fin q => if decide (q < 0) then NInf else PInf
  | NInf, Fin q => if decide (q < 0) then PInf else NInf
  | PInf, PInf | PInf, NInf | NInf, PInf | NInf, NInf => NaN
  end.

(** [x < y]; false as soon as one side is NaN. *)
Definition lt (x y : num) : bool :=
  match x, y with
  | NaN, _ | _, NaN => false
  | Fin p, Fin q => bool_decide (p < q)
  | NInf, NInf => false
  | NInf, _ => true
  | _, NInf => false
  | PInf, _ => false
  | Fin _, PInf => true
  end.

(** [x > y] *)
Definition gt (x y : num) : bool := lt y x.

Definition isnan (x : num) : bool :=
  match x with NaN => true | _ => false end.

Definition isfinite (x : num) : bool :=
  match x with Fin _ => true | _ => false end.

(** The builtin [sum]: a left fold of [+] that starts from the integer 0. *)
Definition sum (xs : list num) : num := foldl add (of_Z 0) xs.

(** [round(x, 2)]: two decimals, ties to the even neighbour. *)
Definition round_half_even (q : Qc) : Z :=
  let f := Qfloor q in
  let r := q - Qc_of_Z f in
  if decide (r < qc 1 2) then f
  else if decide (qc 1 2 < r) then (f + 1)%Z
  else if Z.even f then f else (f + 1)%Z.

Definition round2 (x : num) : num :=
  match x with
  | Fin q => Fin (Qc_of_Z (round_half_even (q * qc 100 1)) / qc 100 1)
  | _ => x
  end.

End Num.
Import Num.

(** ** Outcomes *)

Inductive outcome (A : Type) : Type :=
  | Returns (a : A)
  | Raises (exn : string).
Arguments Returns {A} a.
Arguments Raises {A} exn.

#[global] Instance outcome_ret : MRet outcome := @Returns.
#[global] Instance outcome_bind : MBind outcome := λ A B f m,
  match m with
  | Returns a => f a
  | Raises e => Raises e
  end.

#[global] Instance outcome_eq_dec `{EqDecision A} : EqDecision (outcome A).
Proof. solve_decision. Defined.

(** ** Data frames

    A pandas [Series] of floats is the list of its values, a [DataFrame] is
    the list of its labelled columns, in column order.  Column labels are
    unique ([wf_frame]), as in every frame [pd.merge] builds here.  The
    entries of the ['Date'] column are kept as their day numbers: no function
    below looks at them. *)

Abbreviation Series := (list num).
Abbreviation DataFrame := (list (string * Series)).

Definition columns (df : DataFrame) : list string := df.*1.

Definition wf_frame (df : DataFrame) : Prop := NoDup (columns df).

(** [df[col]] read: the column, [KeyError] when there is none. *)
Fixpoint getitem (df : DataFrame) (col : string) : outcome Series :=
  match df with
  | [] => Raises "KeyError"
  | (c, s) :: rest => if decide (c = col) then Returns s else getitem rest col
  end.

(** [df[col] = s]: replaces the column, appends it when the label is new. *)
Fixpoint setitem (df : DataFrame) (col : string) (s : Series) : DataFrame :=
  match df with
  | [] => [(col, s)]
  | (c, s0) :: rest =>
      if decide (c = col) then (c, s) :: rest else (c, s0) :: setitem rest col s
  end.

(** [s.iloc[0]] *)
Definition iloc0 (s : Series) : outcome num :=
  match s with
  | x :: _ => Returns x
  | [] => Raises "IndexError"
  end.

(** ** The libraries underneath

    Two behaviours of pandas and numpy depend on the version or on the
    build that is installed, and what [pd.to_datetime] reads as a date is
    pandas' own.  They are left open: every property below holds whichever
    way they go. *)
Class Libraries : Type := {
  (** [pct_change] first fills a missing price with the last price before
      it (pandas before 3.0), or does not (pandas 3). *)
  pct_change_pads : bool;
  (** What [lstsq] makes of a system that holds NaN: [None] when LAPACK
      does not converge and numpy raises [LinAlgError], the coefficients it
      hands back otherwise. *)
  lstsq_nan : Series → Series → option (num * num);
  (** What [pd.to_datetime] makes of a column: the column of dates (a column
      that holds dates already is returned as it is), or the exception it
      raises on a value that it cannot read as a date. *)
  to_datetime : Series → outcome Series
}.

(** ** CAPM_function.py *)

(** [normalize]: every column but ['Date'] is divided by its first value. *)
Fixpoint normalize_loop (cols : list string) (df : DataFrame) : outcome DataFrame :=
  match cols with
  | [] => Returns df
  | col :: rest =>
      if decide (col ≠ "Date") then
        s ← getitem df col;
        x0 ← iloc0 s;
        normalize_loop rest (setitem df col ((λ v, div v x0) <$> s))
      else normalize_loop rest df
  end.

Definition normalize (df_2 : DataFrame) : outcome DataFrame :=
  let df := df_2 in
  normalize_loop (columns df) df.

(** [Series.shift(1)]: one row down, NaN in the first row, same length. *)
Definition shift1 (s : Series) : Series := take (length s) (NaN :: s).

(** [Series.ffill()]: a missing value takes the last value before it. *)
Fixpoint ffill_from (last : num) (s : Series) : Series :=
  match s with
  | [] => []
  | v :: rest =>
      let v' := if isnan v then last else v in
      v' :: ffill_from v' rest
  end.

Definition ffill (s : Series) : Series := ffill_from NaN s.

(** The column [pct_change] divides: the given one, forward-filled when
    pandas still does that. *)
Definition pct_data `{Libraries} (s : Series) : Series :=
  if pct_change_pads then ffill s else s.

(** [Series.pct_change()]: [data / data.shift(1) - 1]. *)
Definition pct_change `{Libraries} (s : Series) : Series :=
  let data := pct_data s in
  zip_with (λ p q, sub (div p q) (of_Z 1)) data (shift1 data).

(** [Series.fillna(0)] *)
Definition fillna0 (s : Series) : Series :=
  (λ v, if isnan v then of_Z 0 else v) <$> s.

Definition daily_return_col `{Libraries} (s : Series) : Series :=
  (λ v, mul v (of_Z 100)) <$> fillna0 (pct_change s).

(** [daily_return]: reads the columns of [df], writes them to the copy. *)
Fixpoint daily_return_loop `{Libraries} (cols : list string)
    (df df_daily_return : DataFrame)
    : outcome DataFrame :=
  match cols with
  | [] => Returns df_daily_return
  | col :: rest =>
      if decide (col ≠ "Date") then
        s ← getitem df col;
        daily_return_loop rest df (setitem df_daily_return col (daily_return_col s))
      else daily_return_loop rest df df_daily_return
  end.

Definition daily_return `{Libraries} (df : DataFrame) : outcome DataFrame :=
  let df_daily_return := df in
  daily_return_loop (columns df) df df_daily_return.

(** The values of a column when all of them are finite. *)
Definition finite_value (v : num) : option Qc :=
  match v with Fin q => Some q | _ => None end.

Definition finite_values (s : Series) : option (list Qc) := mapM finite_value s.

(** [Σ x] and [Σ x y], the entries of the normal equations. *)
Definition qsum (xs : list Qc) : Qc := foldr Qcplus 0 xs.
Arguments qsum : simpl never.

Definition dot (xs ys : list Qc) : Qc := qsum (zip_with Qcmult xs ys).

(** [np.polyfit(x, y, 1)], in exact arithmetic.

    numpy rejects an empty [x] and columns of different lengths with
    [TypeError].  It then builds the Vandermonde matrix with the columns
    [x] and [1], divides each column by its Euclidean norm, calls
    [lstsq(lhs, rhs, rcond)] with [rcond = len(x) * eps], which gives the
    least-squares solution of least norm of the scaled system, and divides
    the coefficients by the norms again.

    - A column norm of zero ([x] all zero), or a value that is not finite,
      puts NaN into the system: what follows is [lstsq_nan].
    - The scaled columns are unit vectors with inner product
      [c = Σx / √(n Σx²)], so the singular values of the scaled matrix are
      [√(1 + |c|)] and [√(1 - |c|)].  [lstsq] treats the smaller one as zero
      when it is at most [rcond] times the larger one, that is when
      [1 - |c| ≤ rcond² (1 + |c|)]: for [rcond < 1] (fewer than 2⁵² rows)
      this is [n Σx² (1 - rcond²)² ≤ (Σx)² (1 + rcond²)²], the test
      [rank_cut].  It holds for a constant column and for a column that is
      constant up to a few units in the last place.
    - When the rank is not cut it is 2 and the solution is the one of the
      normal equations.
    - When the rank is cut (numpy only warns, [RankWarning]) the solution
      keeps the direction of the larger singular value only:
      [b = (Σxy + s t Σy) / (2 (Σx² + |Σx| t))] and
      [a = (s Σxy + t Σy) / (2 (n t + |Σx|))], where [t = √(Σx² / n)] and [s]
      is the sign of [Σx].  For a constant column [t = |Σx| / n] exactly.
      Within the cut [|Σx| / n ≤ t ≤ (|Σx| / n) (1 + rcond²) / (1 - rcond²)]:
      the two differ by less than the rounding of a double ([rcond²] against
      [eps]), which this model leaves out everywhere, and the model takes
      [t = |Σx| / n]: [b = (n Σxy + Σx Σy) / (2 (n Σx² + (Σx)²))] and
      [a = (n Σxy + Σx Σy) / (4 n Σx)], which on a constant column [c] are
      [mean(y) / (2 c)] and [mean(y) / 2]. *)
Definition eps : Qc := qc 1 4503599627370496.

Definition rcond (n : Qc) : Qc := n * eps.

Definition rank_cut (n sx sxx : Qc) : Prop :=
  let r2 := rcond n * rcond n in
  n * sxx * ((1 - r2) * (1 - r2)) ≤ sx * sx * ((1 + r2) * (1 + r2)).

#[global] Instance rank_cut_dec (n sx sxx : Qc) : Decision (rank_cut n sx sxx).
Proof. unfold rank_cut. apply _. Defined.

Definition lstsq_on_nan `{Libraries} (x y : Series) : outcome (num * num) :=
  match lstsq_nan x y with
  | Some c => Returns c
  | None => Raises "LinAlgError"
  end.

Definition polyfit1 `{Libraries} (x y : Series) : outcome (num * num) :=
  if decide (length x = 0%nat) then Raises "TypeError"
  else if decide (length x ≠ length y) then Raises "TypeError"
  else
    match finite_values x, finite_values y with
    | Some xs, Some ys =>
        let n := Qc_of_Z (Z.of_nat (length xs)) in
        let sx := qsum xs in
        let sy := qsum ys in
        let sxx := dot xs xs in
        let sxy := dot xs ys in
        if decide (sxx = 0) then lstsq_on_nan x y
        else if decide (rank_cut n sx sxx) then
          Returns (Fin ((n * sxy + sx * sy) / (2 * (n * sxx + sx * sx))),
                   Fin ((n * sxy + sx * sy) / (2 * (2 * n * sx))))
        else
          let det := n * sxx - sx * sx in
          Returns (Fin ((n * sxy - sx * sy) / det),
                   Fin ((sxx * sy - sx * sxy) / det))
    | _, _ => lstsq_on_nan x y
    end.

Definition calculate_beta `{Libraries} (stock_daily_return : DataFrame)
    (stock : string)
    : outcome (num * num) :=
  x ← getitem stock_daily_return "sp500";
  y ← getitem stock_daily_return stock;
  '(b, a) ← polyfit1 x y;
  Returns (b, a).

(** [interactive_plot]: the figure, as the list of its traces [fig.data].
    [px.line()] starts the figure with one trace of its own, which holds no
    data; every [add_scatter] appends one.  The layout (width 450, margins,
    horizontal legend) is a constant and is left out. *)
Record Scatter : Type := {
  scatter_x : Series;
  scatter_y : Series;
  scatter_mode : string;
  scatter_name : string
}.

Inductive Trace : Type :=
  | px_line_trace
  | add_scatter (trace : Scatter).

(** [px.line()] *)
Definition px_line : list Trace := [px_line_trace].

Fixpoint interactive_plot_loop (cols : list string) (df : DataFrame)
    (fig : list Trace) : outcome (list Trace) :=
  match cols with
  | [] => Returns fig
  | col :: rest =>
      if decide (col ≠ "Date") then
        x ← getitem df "Date";
        y ← getitem df col;
        interactive_plot_loop rest df
          (fig ++ [add_scatter {| scatter_x := x; scatter_y := y;
                                  scatter_mode := "lines";
                                  scatter_name := col |}])
      else interactive_plot_loop rest df fig
  end.

Definition interactive_plot (df : DataFrame) : outcome (list Trace) :=
  let fig := px_line in
  interactive_plot_loop (columns df) df fig.

(** ** CAPM_return.py *)

(** The doubles Python reads from the literals [0.8] and [1.2] of the
    comparisons with beta: the doubles nearest to 8/10 and 12/10, the first
    a little above 8/10, the second a little below 12/10.  The other
    literals of these comparisons ([0], [1.5], [10], [20]) are doubles
    themselves.  [double_0_79] is the double of the literal [0.79]. *)
Definition double_0_8 : Qc := qc 3602879701896397 4503599627370496.
Definition double_1_2 : Qc := qc 5404319552844595 4503599627370496.
Definition double_0_79 : Qc := qc 889460926405673 1125899906842624.

Definition get_risk_interpretation (beta : num) : string * string :=
  if lt beta (of_Z 0) then
    ("Negative Beta (Inverse Market Relationship)", "🔵")
  else if lt beta (Fin double_0_8) then
    ("Low Volatility (Defensive)", "🟢")
  else if lt beta (Fin double_1_2) then
    ("Market Average", "🟡")
  else if lt beta (Fin (qc 15 10)) then
    ("High Volatility (Aggressive)", "🟠")
  else
    ("Very High Volatility (Very Aggressive)", "🔴").

(** The five categories of the classification. *)
Definition risk_categories : list string :=
  [ "Negative Beta (Inverse Market Relationship)";
    "Low Volatility (Defensive)";
    "Market Average";
    "High Volatility (Aggressive)";
    "Very High Volatility (Very Aggressive)" ].

(** A Python [dict] with string keys, in insertion order: [beta], [alpha]. *)
Abbreviation dict V := (list (string * V)).

Fixpoint dict_set {V} (d : dict V) (k : string) (v : V) : dict V :=
  match d with
  | [] => [(k, v)]
  | (k0, v0) :: rest =>
      if decide (k0 = k) then (k0, v) :: rest else (k0, v0) :: dict_set rest k v
  end.

(** [valid_stocks]: the columns that are neither ['Date'] nor ['sp500']. *)
Definition valid_stocks (merged_df : DataFrame) : list string :=
  filter (λ col, col ≠ "Date" ∧ col ≠ "sp500") (columns merged_df).

(** The loop that fills [beta] and [alpha]. *)
Fixpoint beta_alpha_loop `{Libraries} (stocks : list string)
    (stocks_daily_return : DataFrame) (beta alpha : dict num) : outcome (dict num * dict num) :=
  match stocks with
  | [] => Returns (beta, alpha)
  | stock :: rest =>
      if decide (stock ∈ columns stocks_daily_return) then
        '(b, a) ← calculate_beta stocks_daily_return stock;
        beta_alpha_loop rest stocks_daily_return
          (dict_set beta stock b) (dict_set alpha stock a)
      else beta_alpha_loop rest stocks_daily_return beta alpha
  end.

(** [Series.mean()]: missing values are skipped; NaN when nothing is left. *)
Definition mean (s : Series) : num :=
  let vs := filter (λ v, isnan v = false) s in
  div (sum vs) (of_nat (length vs)).

(** [rf = 0] *)
Definition rf : num := of_Z 0.

(** [rm = stocks_daily_return['sp500'].mean() * 252] *)
Definition rm (stocks_daily_return : DataFrame) : outcome num :=
  s ← getitem stocks_daily_return "sp500";
  Returns (mul (mean s) (of_Z 252)).

(** [rf + value * (rm - rf)], the expression of the return loop and of the
    per-stock analysis. *)
Definition expected_return (rf value rm : num) : num :=
  add rf (mul value (sub rm rf)).

(** The loop that fills [return_value]. *)
Definition return_value (rf rm : num) (beta : dict num) : list num :=
  (λ '(stock, value), round2 (expected_return rf value rm)) <$> beta.

(** [sum(xs) / len(xs)]: on an empty list both operands are Python
    integers and the division raises. *)
Definition sum_div_len (xs : list num) : outcome num :=
  if decide (length xs = 0%nat) then Raises "ZeroDivisionError"
  else Returns (div (sum xs) (of_nat (length xs))).

(** The three branches of the final insight: [st.info] (conservative),
    [st.warning] (aggressive), [st.success] (balanced). *)
Inductive insight : Type := Conservative | Aggressive | Balanced.

#[global] Instance insight_eq_dec : EqDecision insight.
Proof. solve_decision. Defined.

Definition final_insight (avg_beta : num) : insight :=
  if lt avg_beta (of_Z 1) then Conservative
  else if gt avg_beta (Fin (qc 12 10)) then Aggressive
  else Balanced.

Record PortfolioSummary : Type := {
  avg_beta : num;
  avg_return : num;
  number_of_stocks : nat;
  portfolio_insight : insight
}.

#[global] Instance PortfolioSummary_eq_dec : EqDecision PortfolioSummary.
Proof. solve_decision. Defined.

(** The portfolio summary of the script. *)
Definition portfolio_summary (stocks_list : list string) (beta : dict num)
    (return_value : list num) : outcome PortfolioSummary :=
  avg_beta ← sum_div_len beta.*2;
  avg_return ← sum_div_len return_value;
  Returns {| avg_beta := avg_beta;
             avg_return := avg_return;
             number_of_stocks := length stocks_list;
             portfolio_insight := final_insight avg_beta |}.

(** From the merged price table to the summary, as the script chains them. *)
Definition capm_analysis `{Libraries} (stocks_list : list string)
    (merged_df : DataFrame)
    : outcome (dict num * dict num * list num * PortfolioSummary) :=
  stocks_daily_return ← daily_return merged_df;
  '(beta, alpha) ← beta_alpha_loop (valid_stocks merged_df) stocks_daily_return [] [];
  rm ← rm stocks_daily_return;
  let return_value := return_value rf rm beta in
  summary ← portfolio_summary stocks_list beta return_value;
  Returns (beta, alpha, return_value, summary).

(** [f"{x:.2f}"]: fixed notation with two decimals, ties to the even
    neighbour; [nan] and [inf] for the special values. *)
Definition two_digits (n : N) : string :=
  if decide (n < 10)%N then "0" +:+ pretty n else pretty n.

Definition format_2f (x : num) : string :=
  match x with
  | NaN => "nan"
  | PInf => "inf"
  | NInf => "-inf"
  | Fin q =>
      let n := Z.to_N (Z.abs (round_half_even (q * qc 100 1))) in
      (if decide (q < 0) then "-" else "")
      +:+ pretty (n / 100)%N +:+ "." +:+ two_digits (n mod 100)%N
  end.

Definition get_recommendations (beta expected_return : num) (stock : string)
    : list string :=
  let '(risk_cat, _) := get_risk_interpretation beta in
  let recommendations : list string := [] in
  let recommendations :=
    if lt beta (of_Z 0) then
      (recommendations
       ++ ["✓ " +:+ stock +:+ " moves inversely to the market - good for hedging"])
      ++ ["✓ Consider for portfolio diversification during market downturns"]
    else if lt beta (Fin double_0_8) then
      (recommendations
       ++ ["✓ " +:+ stock
           +:+ " is less volatile than the market - suitable for conservative investors"])
      ++ ["✓ Good for capital preservation and steady returns"]
    else if lt beta (Fin double_1_2) then
      (recommendations
       ++ ["✓ " +:+ stock +:+ " moves in line with the market - balanced risk/reward"])
      ++ ["✓ Suitable for moderate risk tolerance investors"]
    else if lt beta (Fin (qc 15 10)) then
      (recommendations
       ++ ["⚠ " +:+ stock
           +:+ " is more volatile than the market - higher risk and potential reward"])
      ++ ["⚠ Suitable for growth-oriented investors with higher risk tolerance"]
    else
      (recommendations
       ++ ["⚠ " +:+ stock
           +:+ " is highly volatile - significant risk and potential reward"])
      ++ ["⚠ Only suitable for aggressive investors comfortable with large price swings"]
  in
  let recommendations :=
    if gt expected_return (of_Z 20) then
      recommendations
      ++ ["📈 High expected annual return of " +:+ format_2f expected_return +:+ "%"]
    else if gt expected_return (of_Z 10) then
      recommendations
      ++ ["📊 Moderate expected annual return of " +:+ format_2f expected_return +:+ "%"]
    else
      recommendations
      ++ ["📉 Conservative expected annual return of "
          +:+ format_2f expected_return +:+ "%"]
  in
  recommendations.

(** [df[cols]]: the listed columns, in the order of the list; [KeyError] when
    one of them is missing. *)
Fixpoint getitems (df : DataFrame) (cols : list string) : outcome DataFrame :=
  match cols with
  | [] => Returns []
  | col :: rest =>
      s ← getitem df col;
      selected ← getitems df rest;
      Returns ((col, s) :: selected)
  end.

(** [plot_df = merged_df[['Date'] + valid_stocks].copy()] *)
Definition plot_df (merged_df : DataFrame) : outcome DataFrame :=
  getitems merged_df ("Date" :: valid_stocks merged_df).

(** The two price charts of the script: absolute and normalized prices. *)
Definition price_charts (merged_df : DataFrame)
    : outcome (list Trace * list Trace) :=
  plot_df1 ← plot_df merged_df;
  absolute ← interactive_plot plot_df1;
  plot_df2 ← plot_df merged_df;
  normalized_df ← normalize plot_df2;
  normalized ← interactive_plot normalized_df;
  Returns (absolute, normalized).

(** [prepare_yfinance_data]: from the frame [yf.download] gives to the two
    columns ['Date'] and [rename_to].

    The download and [reset_index] are the provider's side: the function
    starts here from the frame as it is after [reset_index], with the index
    as its first column, either with plain labels or with the tuples of a
    [MultiIndex], and from the answer of
    [is_datetime64_any_dtype(df.iloc[:, 0])].  Labels are taken to be ASCII
    ([str.lower] and [str.strip] are modelled on ASCII) and without
    repetition after the renaming of the date column. *)
Inductive Labelled : Type :=
  | Index (df : DataFrame)
  | MultiIndex (df : list (list string * Series)).

Record Downloaded : Type := {
  downloaded_frame : Labelled;
  first_is_datetime : bool
}.

(** [str.lower] and [str.strip] on ASCII. *)
Definition lower_ascii (a : ascii) : ascii :=
  let n := N_of_ascii a in
  if decide (65 ≤ n ∧ n ≤ 90)%N then ascii_of_N (n + 32) else a.

Fixpoint lower (s : string) : string :=
  match s with
  | EmptyString => EmptyString
  | String a rest => String (lower_ascii a) (lower rest)
  end.

Definition is_space (a : ascii) : bool :=
  let n := N_of_ascii a in
  bool_decide ((9 ≤ n ∧ n ≤ 13) ∨ (28 ≤ n ∧ n ≤ 32))%N.

Fixpoint lstrip (s : string) : string :=
  match s with
  | EmptyString => EmptyString
  | String a rest => if is_space a then lstrip rest else s
  end.

Fixpoint rstrip (s : string) : string :=
  match s with
  | EmptyString => EmptyString
  | String a rest =>
      match rstrip rest with
      | EmptyString => if is_space a then EmptyString else String a EmptyString
      | rest' => String a rest'
      end
  end.

Definition strip (s : string) : string := rstrip (lstrip s).

(** [needle in hay] *)
Fixpoint contains (needle hay : string) : bool :=
  if String.prefix needle hay then true
  else
    match hay with
    | EmptyString => false
    | String _ rest => contains needle rest
    end.

(** ['_'.join(levels)] *)
Fixpoint join_underscore (levels : list string) : string :=
  match levels with
  | [] => ""
  | [level] => level
  | level :: rest => level +:+ "_" +:+ join_underscore rest
  end.

(** ['_'.join(filter(None, map(str, col))).strip()] *)
Definition flatten_label (col : list string) : string :=
  strip (join_underscore (filter (λ level, level ≠ "") col)).

Definition possible_date_names : list string :=
  ["Date"; "date"; "Datetime"; "datetime"; "index"].

(** The loop that looks for the date column: the first label that fits. *)
Fixpoint find_date_column (cols : list string) : option string :=
  match cols with
  | [] => None
  | col :: rest =>
      if decide (col ∈ possible_date_names ∨ contains "date" (lower col) = true)
      then Some col
      else find_date_column rest
  end.

(** [df.rename(columns={old: new})] *)
Definition rename_columns (old new : string) (df : DataFrame) : DataFrame :=
  (λ '(col, s), (if decide (col = old) then new else col, s)) <$> df.

(** [df.empty], read on the frame after [reset_index]: no row, or no column
    besides the index. *)
Definition was_empty {L} (df : list (L * Series)) : bool :=
  match df with
  | [] => true
  | (_, s) :: rest => bool_decide (s = [] ∨ rest = [])
  end.

(** The frame with plain labels: a [MultiIndex] is flattened. *)
Definition flat_frame (frame : Labelled) : DataFrame :=
  match frame with
  | Index df => df
  | MultiIndex df => (λ '(col, s), (flatten_label col, s)) <$> df
  end.

(** [date_column]: the label found by the loop, else the first label when
    the first column holds dates. *)
Definition date_column_of (cols : list string) (first_is_datetime : bool)
    : option string :=
  match find_date_column cols with
  | Some date_column => Some date_column
  | None => if first_is_datetime then head cols else None
  end.

(** [close_cols]: the two searches for the close price column. *)
Definition close_columns (cols : list string) : list string :=
  let close_cols :=
    filter (λ col, contains "Close" col = true
                   ∨ contains "close" (lower col) = true) cols in
  if decide (close_cols = []) then
    filter (λ col, contains "adj" (lower col) = true
                   ∧ (contains "close" (lower col) = true
                      ∨ contains "price" (lower col) = true)) cols
  else close_cols.

(** [df.empty] of the download. *)
Definition downloaded_empty (downloaded : Downloaded) : bool :=
  match downloaded_frame downloaded with
  | Index df => was_empty df
  | MultiIndex df => was_empty df
  end.

Definition prepare_yfinance_data `{Libraries} (downloaded : Downloaded)
    (rename_to : string) : outcome DataFrame :=
  if downloaded_empty downloaded then Raises "ValueError"
  else
    let df := flat_frame (downloaded_frame downloaded) in
    match date_column_of (columns df) (first_is_datetime downloaded) with
    | None => Raises "KeyError"
    | Some date_column =>
        let df :=
          if decide (date_column ≠ "Date")
          then rename_columns date_column "Date" df else df in
        match close_columns (columns df) with
        | [] => Raises "KeyError"
        | close_col :: _ =>
            df ← getitems df ["Date"; close_col];
            let df := rename_columns close_col rename_to df in
            dates ← getitem df "Date";
            dates ← to_datetime dates;
            let df := setitem df "Date" dates in
            Returns df
        end
    end.

(** The loop of the script that loads the selected stocks: a stock whose
    download or preparation fails ([except Exception]) is noted in
    [failed_stocks] and skipped.  [yf_download] is the provider's answer for
    a ticker. *)
Fixpoint load_loop `{Libraries} (yf_download : string → Downloaded)
    (stocks : list string)
    (stock_dfs : list DataFrame) (failed_stocks : list string)
    : list DataFrame * list string :=
  match stocks with
  | [] => (stock_dfs, failed_stocks)
  | stock :: rest =>
      match prepare_yfinance_data (yf_download stock) stock with
      | Returns stock_df =>
          load_loop yf_download rest (stock_dfs ++ [stock_df]) failed_stocks
      | Raises _ =>
          load_loop yf_download rest stock_dfs (failed_stocks ++ [stock])
      end
  end.

(** [stock_dfs] and the [stocks_list] the script goes on with. *)
Definition load_stocks `{Libraries} (yf_download : string → Downloaded)
    (stocks_list : list string) : list DataFrame * list string :=
  let '(stock_dfs, failed_stocks) := load_loop yf_download stocks_list [] [] in
  let stocks_list :=
    if decide (failed_stocks ≠ [])
    then filter (λ s, s ∉ failed_stocks) stocks_list
    else stocks_list in
  (stock_dfs, stocks_list).


(** [pd.merge(left, right, on='Date', how='inner')]: one row for each pair
    of a row of [left] and a row of [right] with the same date (missing
    dates match each other), in the order of the rows of [left]; the
    columns of [left], then those of [right] but the key; a label that the
    two share besides the key gets the suffixes [_x] and [_y]; [KeyError]
    when a frame has no ['Date'].  The dates of a download are distinct, and
    for such frames this is the row order of every version of pandas. *)
Fixpoint positions_from (j : nat) (date : num) (dates : Series) : list nat :=
  match dates with
  | [] => []
  | d :: rest =>
      if decide (d = date) then j :: positions_from (S j) date rest
      else positions_from (S j) date rest
  end.

Definition key_matches (left_dates right_dates : Series) : list (nat * nat) :=
  mjoin (imap (λ i date, (λ j, (i, j)) <$> positions_from 0 date right_dates)
              left_dates).

Definition take_rows (rows : list nat) (s : Series) : Series :=
  (λ i, default NaN (s !! i)) <$> rows.

Definition merge (left right : DataFrame) : outcome DataFrame :=
  left_dates ← getitem left "Date";
  right_dates ← getitem right "Date";
  let rows := key_matches left_dates right_dates in
  let label (suffix col : string) : string :=
    if decide (col ≠ "Date" ∧ col ∈ columns left ∧ col ∈ columns right)
    then col +:+ suffix else col in
  Returns
    (((λ '(col, s), (label "_x" col, take_rows rows.*1 s)) <$> left)
     ++ ((λ '(col, s), (label "_y" col, take_rows rows.*2 s))
         <$> filter (λ cs, cs.1 ≠ "Date") right)).

(** [df.empty] of a frame with columns: no row. *)
Definition empty (df : DataFrame) : bool :=
  match df with
  | [] => true
  | (_, s) :: _ => bool_decide (s = [])
  end.

(** The loop that merges the frames of the stocks. *)
Fixpoint merge_loop (merged_stocks : DataFrame) (stock_dfs : list DataFrame)
    : outcome DataFrame :=
  match stock_dfs with
  | [] => Returns merged_stocks
  | df :: rest =>
      merged_stocks ← merge merged_stocks df;
      merge_loop merged_stocks rest
  end.

(** How a run of the script ends, or goes on: with a value, at one of its
    [st.stop()] after a message, in its [except Exception] with the error
    shown, or with an exception raised outside the [try]. *)
Inductive page (A : Type) : Type :=
  | Ran (a : A)
  | Stopped (message : string)
  | ErrorShown (exn : string)
  | Uncaught (exn : string).
Arguments Ran {A} a.
Arguments Stopped {A} message.
Arguments ErrorShown {A} exn.
Arguments Uncaught {A} exn.

#[global] Instance page_eq_dec `{EqDecision A} : EqDecision (page A).
Proof. solve_decision. Defined.


(** The script from the selection [stocks_list] to [merged_df]: the guard
    on an empty selection, the downloads, the guard on [stock_dfs], the
    merges and the guard on an empty [merged_df]. *)
Definition load_data `{Libraries} (yf_download : string → Downloaded)
    (stocks_list : list string) : page (list string * DataFrame) :=
  if decide (stocks_list = []) then
    Stopped "👆 Please select at least one stock to begin the analysis"
  else
    match prepare_yfinance_data (yf_download "^GSPC") "sp500" with
    | Raises e => ErrorShown e
    | Returns sp500_data =>
        let '(stock_dfs, stocks_list) := load_stocks yf_download stocks_list in
        match stock_dfs with
        | [] =>
            Stopped "❌ No valid stock data available. Please select different stocks."
        | first :: rest =>
            match merged_stocks ← merge_loop first rest;
                  merge merged_stocks sp500_data with
            | Raises e => ErrorShown e
            | Returns merged_df =>
                if empty merged_df then
                  Stopped "❌ No overlapping dates found. Please try a different date range."
                else Ran (stocks_list, merged_df)
            end
        end
    end.

(** [datetime.date(year, month, day)]: [ValueError] when there is no such
    day. *)
Record date : Type := {
  date_year : Z;
  date_month : Z;
  date_day : Z
}.

Definition is_leap (year : Z) : bool :=
  bool_decide (year mod 4 = 0 ∧ (year mod 100 ≠ 0 ∨ year mod 400 = 0))%Z.

Definition days_in_month (year month : Z) : Z :=
  if decide (month = 2)%Z then (if is_leap year then 29 else 28)%Z
  else if decide (month ∈ [4; 6; 9; 11]%Z) then 30%Z
  else 31%Z.

Definition is_date (year month day : Z) : Prop :=
  (1 ≤ year ≤ 9999 ∧ 1 ≤ month ≤ 12
   ∧ 1 ≤ day ≤ days_in_month year month)%Z.

Definition new_date (year month day : Z) : outcome date :=
  if decide (is_date year month day) then
    Returns {| date_year := year; date_month := month; date_day := day |}
  else Raises "ValueError".

(** The script as a whole, for the day [today] it runs on, the number of
    years [year] and the selection [stocks_list] of its two inputs: the
    start date, the data, the two price charts and the analysis down to the
    portfolio summary.  [yf_download] is the provider's answer for a ticker
    and the two dates.  What the script only displays is left out. *)
Definition script `{Libraries} (yf_download : string → date → date → Downloaded)
    (today : date) (year : Z) (stocks_list : list string)
    : page (dict num * dict num * list num * PortfolioSummary) :=
  let end_ := today in
  match new_date (date_year end_ - year) (date_month end_) (date_day end_) with
  | Raises e => Uncaught e
  | Returns start =>
      match load_data (λ ticker, yf_download ticker start end_) stocks_list with
      | Stopped message => Stopped message
      | ErrorShown e => ErrorShown e
      | Uncaught e => Uncaught e
      | Ran (stocks_list, merged_df) =>
          match _ ← price_charts merged_df;
                capm_analysis stocks_list merged_df with
          | Raises e => ErrorShown e
          | Returns analysis => Ran analysis
          end
      end
  end.


(** ** What the properties are stated with *)

(** What [normalize] makes of one column. *)
Definition normalize_col (col : string) (s : Series) : Series :=
  if decide (col ≠ "Date") then
    match s with
    | [] => []
    | x0 :: _ => (λ v, div v x0) <$> s
    end
  else s.

(** What [daily_return] makes of one column. *)
Definition daily_return_of `{Libraries} (col : string) (s : Series) : Series :=
  if decide (col ≠ "Date") then daily_return_col s else s.

(** The number of rows of a column, as a rational. *)
Definition rows (xs : list Qc) : Qc := Qc_of_Z (Z.of_nat (length xs)).


(** A column all of whose values are the same. *)
Definition constant (xs : list Qc) : Prop := ∃ c, ∀ x, x ∈ xs → x = c.

(** A market column on which [np.polyfit] keeps the full rank: it is not
    constant, also not up to the cutoff [rcond] of [lstsq]. *)
Definition well_conditioned (xs : list Qc) : Prop :=
  ¬ rank_cut (rows xs) (qsum xs) (dot xs xs).

(** Per-asset results: the stock, its beta and its expected return. *)
Definition result_stocks (results : list (string * Qc * Qc)) : list string :=
  (λ r, r.1.1) <$> results.
Definition result_beta (results : list (string * Qc * Qc)) : dict num :=
  (λ r, (r.1.1, Fin r.1.2)) <$> results.
Definition result_returns (results : list (string * Qc * Qc)) : list num :=
  (λ r, Fin r.2) <$> results.

(** Prices: finite and not zero. *)
Definition price (v : num) : Prop := ∃ q, v = Fin q ∧ q ≠ 0.

(** The fit of finite data whose market column is not all zero, as a
    function of the five sums. *)
Definition fit (n sx sy sxx sxy : Qc) : outcome (num * num) :=
  if decide (rank_cut n sx sxx) then
    Returns (Fin ((n * sxy + sx * sy) / (2 * (n * sxx + sx * sx))),
             Fin ((n * sxy + sx * sy) / (2 * (2 * n * sx))))
  else
    Returns (Fin ((n * sxy - sx * sy) / (n * sxx - sx * sx)),
             Fin ((sxx * sy - sx * sxy) / (n * sxx - sx * sx))).

(** The place of a category in the scale, from 0 (negative beta) to 4. *)
Definition risk_level (category : string) : option nat :=
  fst <$> list_find (λ c, c = category) risk_categories.

(** One beta for each of the five bands. *)
Definition band_betas : list num :=
  [NInf; Fin 0; Fin 1; Fin (qc 13 10); NaN].

(** A stock with its beta and the same stock with its alpha, both from
    [calculate_beta] on the table [df]. *)
Definition fitted `{Libraries} (df : DataFrame) (sb sa : string * num) : Prop :=
  sb.1 = sa.1 ∧ calculate_beta df sb.1 = Returns (sb.2, sa.2).

(** The traces [add_scatter] makes of a table: one for each column but
    ['Date'], in column order, over the dates [x]. *)
Definition traces_of (x : Series) (df : DataFrame) : list Scatter :=
  (λ cs : string * Series,
     {| scatter_x := x; scatter_y := cs.2;
        scatter_mode := "lines"; scatter_name := cs.1 |})
  <$> filter (λ cs : string * Series, cs.1 ≠ "Date") df.

(** Whether the data of a stock can be loaded. *)
Definition loads `{Libraries} (yf_download : string → Downloaded)
    (stock : string) : bool :=
  match prepare_yfinance_data (yf_download stock) stock with
  | Returns _ => true
  | Raises _ => false
  end.

(** ** Example tables *)

(** The libraries of the examples: pandas before 3.0, a LAPACK that does
    not converge on NaN, and columns that hold dates already. *)
#[global] Instance libraries_example : Libraries :=
  {| pct_change_pads := true; lstsq_nan := λ _ _, None;
     to_datetime := λ dates, Returns dates |}.

(** The scenario of the specification: three days of an asset and of the
    market. *)
Definition prices_example : DataFrame :=
  [("Date", [of_Z 1; of_Z 2; of_Z 3]);
   ("asset", [of_Z 100; of_Z 110; of_Z 99]);
   ("sp500", [of_Z 100; of_Z 105; Fin (qc 1008 10)])].

Definition market_returns : list Qc := [qc 0 1; qc 5 1; qc (-4) 1].
Definition asset_returns : list Qc := [qc 0 1; qc 10 1; qc (-10) 1].

Definition returns_example : DataFrame :=
  [("Date", [of_Z 1; of_Z 2; of_Z 3]);
   ("asset", Fin <$> asset_returns);
   ("sp500", Fin <$> market_returns)].

(** Returns of an asset that lie on the line [y = 2 x + 3]. *)
Definition line_example : DataFrame :=
  [("line", Fin <$> ((λ x, 2 * x + qc 3 1) <$> market_returns));
   ("sp500", Fin <$> market_returns)].

(** A table with an instrument whose first price is zero. *)
Definition zero_priced : DataFrame :=
  [("Date", [of_Z 1; of_Z 2; of_Z 3]);
   ("penny", [Fin 0; Fin (qc 5 1); Fin 0])].

Definition results_example : list (string * Qc * Qc) :=
  [("A", qc 8 10, qc 8 1); ("B", qc 10 10, qc 10 1); ("C", qc 14 10, qc 14 1)].

(** A market column that is constant, over two rows and over one. *)
Definition flat_market : DataFrame :=
  [("Date", [of_Z 1; of_Z 2]);
   ("AAPL", [of_Z 2; of_Z 4]);
   ("sp500", [of_Z 1; of_Z 1])].

Definition single_row : DataFrame :=
  [("Date", [of_Z 1]); ("AAPL", [of_Z 2]); ("sp500", [of_Z 1])].

(** The returns of the scenario with the first two days exchanged. *)
Definition returns_swapped : DataFrame :=
  [("Date", [of_Z 2; of_Z 1; of_Z 3]);
   ("asset", Fin <$> [qc 10 1; qc 0 1; qc (-10) 1]);
   ("sp500", Fin <$> [qc 5 1; qc 0 1; qc (-4) 1])].

(** The returns of the scenario beside a position that earns twice the
    asset plus 3. *)
Definition leveraged_example : DataFrame :=
  [("asset", Fin <$> asset_returns);
   ("leveraged", Fin <$> ((λ y, 2 * y + qc 3 1) <$> asset_returns));
   ("sp500", Fin <$> market_returns)].

(** The daily returns of [single_row]. *)
Definition single_row_returns : DataFrame :=
  [("Date", [of_Z 1]); ("AAPL", [Fin 0]); ("sp500", [Fin 0])].



(** A provider that serves the columns of a table, one download per
    column: plain labels, the dates in the index; nothing for a ticker that
    is not a column. *)
Definition download_of (table : DataFrame) (stock : string) : Downloaded :=
  {| downloaded_frame :=
       Index (match getitem table stock, getitem table "Date" with
              | Returns closes, Returns dates =>
                  [("Date", dates); ("Close", closes)]
              | _, _ => []
              end);
     first_is_datetime := true |}.



(** Three days of quotes of a stock of the multiselect and of the market,
    and a provider that has these two tickers only. *)
Definition quotes_example : DataFrame :=
  [("Date", [of_Z 1; of_Z 2; of_Z 3]);
   ("AAPL", [of_Z 100; of_Z 110; of_Z 99]);
   ("sp500", [of_Z 100; of_Z 105; Fin (qc 1008 10)])].

Definition provider_example (ticker : string) (start end_ : date)
    : Downloaded :=
  download_of quotes_example
    (if decide (ticker = "^GSPC") then "sp500" else ticker).

Definition day_example : date :=
  {| date_year := 2025; date_month := 3; date_day := 14 |}.


Definition leap_day : date :=
  {| date_year := 2024; date_month := 2; date_day := 29 |}.


(** * Properties *)

(** Order facts on rationals, by linear arithmetic. *)
Ltac qc_order :=
  destruct_and?; unfold Qclt, Qcle in *; simpl in *;
  repeat match goal with
         | H : context [Qred ?c] |- _ => setoid_rewrite (Qred_correct c) in H
         end;
  unfold inject_Z in *; lra.

(** The cases of [get_recommendations]: the band of the beta and the band of
    the expected return. *)
Ltac beta_bands beta :=
  unfold get_recommendations, get_risk_interpretation;
  destruct (lt beta (of_Z 0)), (lt beta (Fin double_0_8)),
    (lt beta (Fin double_1_2)), (lt beta (Fin (qc 15 10))).

Ltac return_bands r :=
  destruct (gt r (of_Z 20)), (gt r (of_Z 10)).

Section properties.
Context `{libraries : Libraries}.

(** ** Frames: reading and writing a column *)

Lemma getitem_fresh (pre rest : DataFrame) col s :
  col ∉ pre.*1 → getitem (pre ++ (col, s) :: rest) col = Returns s.
Proof.
  induction pre as [|[c w] pre IH]; simpl; intros Hin.
  - by rewrite decide_True.
  - rewrite decide_False by set_solver. apply IH. set_solver.
Qed.

Lemma setitem_fresh (pre rest : DataFrame) col s s' :
  col ∉ pre.*1 →
  setitem (pre ++ (col, s) :: rest) col s' = pre ++ (col, s') :: rest.
Proof.
  induction pre as [|[c w] pre IH]; simpl; intros Hin.
  - by rewrite decide_True.
  - rewrite decide_False by set_solver. f_equal. apply IH. set_solver.
Qed.

Lemma getitem_Some (df : DataFrame) col :
  col ∈ columns df → ∃ s, getitem df col = Returns s ∧ (col, s) ∈ df.
Proof.
  induction df as [|[c w] df IH]; simpl; intros Hin; [set_solver|].
  case_decide as Hc.
  - subst. exists w. split; [done | set_solver].
  - destruct IH as (s & ? & ?); [set_solver|]. exists s. split; [done | set_solver].
Qed.

Lemma getitem_NoDup (df : DataFrame) col s :
  wf_frame df → (col, s) ∈ df → getitem df col = Returns s.
Proof.
  unfold wf_frame, columns. intros Hnd Hin.
  apply list_elem_of_split in Hin as (pre & rest & ->).
  apply getitem_fresh.
  rewrite fmap_app, fmap_cons in Hnd. simpl in Hnd.
  apply NoDup_app in Hnd as (_ & Hnd & _). intros Hc. apply (Hnd _ Hc). set_solver.
Qed.

Lemma columns_fmap (f : string → Series → Series) (df : DataFrame) :
  ((λ '(col, s), (col, f col s)) <$> df).*1 = df.*1.
Proof. induction df as [|[c s] df IH]; [done|]. simpl. f_equal. exact IH. Qed.

Lemma lookup_fmap_column (f : string → Series → Series) (df : DataFrame) i col s :
  df !! i = Some (col, s) →
  ((λ '(col, s), (col, f col s)) <$> df) !! i = Some (col, f col s).
Proof. intros H. by rewrite list_lookup_fmap, H. Qed.

Lemma normalize_loop_columns (rest pre : DataFrame) :
  NoDup (pre ++ rest).*1 →
  (∀ col s, (col, s) ∈ rest → col ≠ "Date" → s ≠ []) →
  normalize_loop rest.*1 (pre ++ rest)
  = Returns (pre ++ ((λ '(col, s), (col, normalize_col col s)) <$> rest)).
Proof.
  revert pre. induction rest as [|[c s] rest IH]; intros pre Hnd Hne; [done|].
  assert (c ∉ pre.*1) as Hc.
  { rewrite fmap_app, fmap_cons in Hnd. apply NoDup_app in Hnd as (_ & Hnd & _).
    intros Hin. apply (Hnd _ Hin). set_solver. }
  assert (∀ s', pre ++ (c, s') :: rest = (pre ++ [(c, s')]) ++ rest) as Hassoc.
  { intros s'. by rewrite <-app_assoc. }
  assert (∀ s', NoDup ((pre ++ [(c, s')]) ++ rest).*1) as Hnd'.
  { intros s'. rewrite <-Hassoc. by rewrite !fmap_app, !fmap_cons in *. }
  simpl. unfold normalize_col at 1. case_decide as Hdate.
  - rewrite getitem_fresh by done. simpl.
    destruct s as [|x0 s].
    { destruct (Hne c []); [set_solver|done|done]. }
    simpl. rewrite setitem_fresh by done. rewrite Hassoc, IH, <-app_assoc.
    + done.
    + done.
    + intros ???. apply Hne. set_solver.
  - rewrite (Hassoc s), IH, <-app_assoc.
    + done.
    + done.
    + intros ???. apply Hne. set_solver.
Qed.

Lemma daily_return_loop_columns (rest pre : DataFrame) :
  NoDup (pre ++ rest).*1 →
  daily_return_loop rest.*1 (pre ++ rest)
    (((λ '(col, s), (col, daily_return_of col s)) <$> pre) ++ rest)
  = Returns ((λ '(col, s), (col, daily_return_of col s)) <$> (pre ++ rest)).
Proof.
  revert pre. induction rest as [|[c s] rest IH]; intros pre Hnd.
  { simpl. by rewrite !app_nil_r. }
  assert (c ∉ pre.*1) as Hc.
  { rewrite fmap_app, fmap_cons in Hnd. apply NoDup_app in Hnd as (_ & Hnd & _).
    intros Hin. apply (Hnd _ Hin). set_solver. }
  assert (pre ++ (c, s) :: rest = (pre ++ [(c, s)]) ++ rest) as Hassoc.
  { by rewrite <-app_assoc. }
  specialize (IH (pre ++ [(c, s)])).
  rewrite <-Hassoc in IH. specialize (IH Hnd).
  rewrite fmap_app in IH. simpl in IH. rewrite <-app_assoc in IH. simpl in IH.
  simpl. case_decide as Hdate.
  - rewrite getitem_fresh by done. simpl.
    rewrite setitem_fresh.
    + assert (daily_return_of c s = daily_return_col s) as E
        by (unfold daily_return_of; by case_decide).
      rewrite E in IH. exact IH.
    + by rewrite (columns_fmap daily_return_of).
  - assert (daily_return_of c s = s) as E
      by (unfold daily_return_of; by case_decide).
    rewrite E in IH. exact IH.
Qed.

Lemma normalize_columns (df : DataFrame) :
  wf_frame df →
  (∀ col s, (col, s) ∈ df → col ≠ "Date" → s ≠ []) →
  normalize df = Returns ((λ '(col, s), (col, normalize_col col s)) <$> df).
Proof. intros. by apply (normalize_loop_columns df []). Qed.

Lemma daily_return_columns (df : DataFrame) :
  wf_frame df →
  daily_return df = Returns ((λ '(col, s), (col, daily_return_of col s)) <$> df).
Proof. intros. by apply (daily_return_loop_columns df []). Qed.

(** ** Columns of [daily_return] and [normalize] *)

Lemma div_nan_r (x : num) : div x NaN = NaN.
Proof. by destruct x. Qed.

Lemma div_finite (p q : Qc) : q ≠ 0 → div (Fin p) (Fin q) = Fin (p / q).
Proof. intros. unfold div. by rewrite decide_False. Qed.

Lemma div_self (q : Qc) : q ≠ 0 → div (Fin q) (Fin q) = Fin 1.
Proof. intros. rewrite div_finite by done. f_equal. by field. Qed.

Lemma div_zero (p : Qc) : div (Fin p) (Fin 0) = signed_inf p.
Proof. unfold div. by rewrite decide_True. Qed.

Lemma signed_inf_not_finite (p : Qc) : isfinite (signed_inf p) = false.
Proof. unfold signed_inf. by destruct (p ?= 0). Qed.

Lemma mul_100_not_nan (v : num) : v ≠ NaN → mul v (of_Z 100) ≠ NaN.
Proof. by destruct v. Qed.

Lemma shift1_length (s : Series) : length (shift1 s) = length s.
Proof. unfold shift1. rewrite length_take. simpl. lia. Qed.

Lemma shift1_lookup_0 (s : Series) x : s !! 0%nat = Some x → shift1 s !! 0%nat = Some NaN.
Proof.
  intros H. unfold shift1. apply lookup_lt_Some in H.
  rewrite lookup_take_lt by done. done.
Qed.

Lemma shift1_lookup_S (s : Series) t p q :
  s !! t = Some q → s !! S t = Some p → shift1 s !! S t = Some q.
Proof.
  intros Hq Hp. unfold shift1. apply lookup_lt_Some in Hp.
  rewrite lookup_take_lt by done. done.
Qed.

Lemma ffill_from_length last (s : Series) :
  length (ffill_from last s) = length s.
Proof. revert last. induction s as [|v s IH]; intros last; simpl; [done|]. by rewrite IH. Qed.

Lemma ffill_from_lookup last (s : Series) t v :
  s !! t = Some v → isnan v = false → ffill_from last s !! t = Some v.
Proof.
  revert last t. induction s as [|w s IH]; intros last [|t] Hv Hnan; simplify_eq/=.
  - by rewrite Hnan.
  - by apply IH.
Qed.

Lemma ffill_lookup_0 (s : Series) x : s !! 0%nat = Some x → ffill s !! 0%nat = Some x.
Proof. destruct s as [|v s]; intros; simplify_eq/=. by destruct x. Qed.

Lemma pct_data_length (s : Series) : length (pct_data s) = length s.
Proof. unfold pct_data, ffill. destruct pct_change_pads; [apply ffill_from_length | done]. Qed.

Lemma pct_data_lookup_0 (s : Series) x :
  s !! 0%nat = Some x → pct_data s !! 0%nat = Some x.
Proof. unfold pct_data. destruct pct_change_pads; [apply ffill_lookup_0 | done]. Qed.

Lemma pct_data_lookup (s : Series) t v :
  s !! t = Some v → isnan v = false → pct_data s !! t = Some v.
Proof.
  unfold pct_data, ffill. destruct pct_change_pads; [apply ffill_from_lookup | done].
Qed.

Lemma daily_return_col_length (s : Series) :
  length (daily_return_col s) = length s.
Proof.
  unfold daily_return_col, fillna0, pct_change.
  rewrite !length_fmap, length_zip_with, shift1_length, pct_data_length. lia.
Qed.

Lemma daily_return_col_first (s : Series) x :
  s !! 0%nat = Some x → daily_return_col s !! 0%nat = Some (Fin 0).
Proof.
  intros H0%pct_data_lookup_0. unfold daily_return_col, fillna0, pct_change.
  rewrite !list_lookup_fmap, lookup_zip_with, H0. simpl.
  rewrite (shift1_lookup_0 _ x H0). simpl. rewrite div_nan_r. simpl.
  by rewrite Z2Qc_inj_0, Qcmult_0_l.
Qed.

Lemma daily_return_col_next (s : Series) t p q :
  s !! t = Some q → s !! S t = Some p → isnan q = false → isnan p = false →
  daily_return_col s !! S t
  = Some (mul (let v := sub (div p q) (of_Z 1) in if isnan v then of_Z 0 else v)
              (of_Z 100)).
Proof.
  intros Hq Hp Hnq Hnp.
  apply pct_data_lookup in Hq; [|done]. apply pct_data_lookup in Hp; [|done].
  unfold daily_return_col, fillna0, pct_change.
  rewrite !list_lookup_fmap, lookup_zip_with, Hp. simpl.
  by rewrite (shift1_lookup_S _ t p q Hq Hp).
Qed.

Lemma daily_return_col_finite (s : Series) t p q :
  s !! t = Some (Fin q) → s !! S t = Some (Fin p) → q ≠ 0 →
  daily_return_col s !! S t = Some (Fin (Qc_of_Z 100 * (p - q) / q)).
Proof.
  intros Hq Hp Hne. rewrite (daily_return_col_next s t _ _ Hq Hp) by done.
  rewrite div_finite by done. simpl. do 2 f_equal.
  rewrite Z2Qc_inj_1. by field.
Qed.

Lemma daily_return_col_not_nan (s : Series) v :
  v ∈ daily_return_col s → v ≠ NaN.
Proof.
  unfold daily_return_col, fillna0. rewrite <-list_fmap_compose.
  intros (w & -> & _)%list_elem_of_fmap. simpl.
  apply mul_100_not_nan. by destruct w.
Qed.

Lemma normalize_col_length col (s : Series) :
  length (normalize_col col s) = length s.
Proof.
  unfold normalize_col. case_decide; [|done].
  destruct s; [done|]. by rewrite length_fmap.
Qed.

Lemma normalize_col_first col (s : Series) x0 :
  col ≠ "Date" → s !! 0%nat = Some x0 →
  normalize_col col s = (λ v, div v x0) <$> s.
Proof.
  intros Hc H. unfold normalize_col. rewrite decide_True by done.
  destruct s; simplify_eq/=. done.
Qed.

Lemma div_by_zero_not_finite (v : num) : isfinite (div v (Fin 0)) = false.
Proof.
  destruct v as [p| | |]; [|done..].
  rewrite div_zero. apply signed_inf_not_finite.
Qed.

(** ** The return calculator *)

(** C3: on a price table (unique column labels) [daily_return] fails at no
    column and gives a table of the same shape: the same column labels in the
    same order, columns of the same length, the ['Date'] column unchanged.
    In every other column the first row is exactly 0, the value at a row
    [t+1] whose two prices are finite, the earlier one not zero, is
    [100 * (price[t+1] - price[t]) / price[t]], and no value is NaN. *)
Theorem daily_return_spec (df : DataFrame) :
  wf_frame df →
  ∃ df', daily_return df = Returns df' ∧ columns df' = columns df ∧
    ∀ i col s, df !! i = Some (col, s) →
      ∃ s', df' !! i = Some (col, s') ∧ length s' = length s ∧
        (col = "Date" → s' = s) ∧
        (col ≠ "Date" →
          (∀ x, s !! 0%nat = Some x → s' !! 0%nat = Some (Fin 0)) ∧
          (∀ t p q, s !! t = Some (Fin q) → s !! S t = Some (Fin p) → q ≠ 0 →
             s' !! S t = Some (Fin (Qc_of_Z 100 * (p - q) / q))) ∧
          (∀ v, v ∈ s' → v ≠ NaN)).
Proof.
  intros Hwf. eexists. split; [by apply daily_return_columns|].
  split; [apply (columns_fmap daily_return_of)|].
  intros i col s Hi. exists (daily_return_of col s).
  split; [by apply (lookup_fmap_column daily_return_of)|].
  unfold daily_return_of. case_decide as Hc.
  - split; [apply daily_return_col_length|]. split; [done|]. intros _.
    split; [apply daily_return_col_first|].
    split; [apply daily_return_col_finite|apply daily_return_col_not_nan].
  - split; [done|]. split; [done|]. intros ?. by destruct Hc.
Qed.

(** ** The normalizer *)


(** C8, as the code has it: [normalize] has no guard against a first price
    of zero.  On a table with at least one row it divides the column by zero
    all the same and returns: the first row of that column is NaN and none of
    its values is finite. *)
Theorem normalize_zero_first_price (df : DataFrame) col s :
  wf_frame df →
  (∀ c s0, (c, s0) ∈ df → c ≠ "Date" → s0 ≠ []) →
  (col, s) ∈ df → col ≠ "Date" → s !! 0%nat = Some (Fin 0) →
  ∃ df' s', normalize df = Returns df' ∧ (col, s') ∈ df' ∧
    s' = (λ v, div v (Fin 0)) <$> s ∧
    s' !! 0%nat = Some NaN ∧
    ∀ v, v ∈ s' → isfinite v = false.
Proof.
  intros Hwf Hrows Hin Hc H0. eexists. exists ((λ v, div v (Fin 0)) <$> s).
  split; [by apply normalize_columns|]. split.
  { apply list_elem_of_fmap. exists (col, s). split; [|done].
    by rewrite (normalize_col_first col s (Fin 0)). }
  split; [done|]. split.
  - by rewrite list_lookup_fmap, H0.
  - intros v (w & -> & _)%list_elem_of_fmap. apply div_by_zero_not_finite.
Qed.

(** ** Least squares *)

Section sums.
Implicit Types (xs ys : list Qc) (x y u v k m : Qc).

Lemma qsum_nil : qsum [] = 0.
Proof. done. Qed.

Lemma qsum_cons x xs : qsum (x :: xs) = x + qsum xs.
Proof. done. Qed.

Lemma rows_cons x xs : rows (x :: xs) = rows xs + 1.
Proof.
  unfold rows. simpl length.
  by rewrite Nat2Z.inj_succ, <-Z.add_1_r, Z2Qc_inj_add, Z2Qc_inj_1.
Qed.

Lemma rows_nil : rows [] = 0.
Proof. apply Z2Qc_inj_0. Qed.

Lemma rows_pos xs : xs ≠ [] → 0 < rows xs.
Proof.
  intros Hne. unfold rows. rewrite <-Z2Qc_inj_0.
  apply (proj1 (Z2Qc_inj_lt _ _)). destruct xs; [done|]. simpl length. lia.
Qed.

Lemma Qc_sq_nonneg x : 0 ≤ x * x.
Proof.
  destruct (Qclt_le_dec x 0) as [Hneg|Hpos].
  - assert (0 ≤ - x) as H.
    { apply Qclt_le_weak, Qcopp_le_compat in Hneg.
      by replace (- 0) with 0 in Hneg by ring. }
    pose proof (Qcmult_le_compat_r 0 (- x) (- x) H H) as H2.
    by replace (0 * - x) with 0 in H2 by ring;
       replace (- x * - x) with (x * x) in H2 by ring.
  - pose proof (Qcmult_le_compat_r 0 x x Hpos Hpos) as H2.
    by replace (0 * x) with 0 in H2 by ring.
Qed.

Lemma Qc_sq_zero x : x * x = 0 → x = 0.
Proof. intros H. by destruct (Qcmult_integral _ _ H). Qed.

Lemma Qc_nonneg_sum_zero u v : 0 ≤ u → 0 ≤ v → u + v = 0 → u = 0 ∧ v = 0.
Proof.
  intros Hu Hv H.
  assert (- v = u) as Huv by (rewrite <-(Qcplus_0_l (- v)), <-H; ring).
  pose proof (Qcopp_le_compat _ _ Hv) as Hv'.
  rewrite Huv in Hv'. replace (- 0) with 0 in Hv' by ring.
  assert (u = 0) as -> by (by apply Qcle_antisym).
  split; [done|]. rewrite <-H. ring.
Qed.

Lemma qsum_squares_nonneg (f : Qc → Qc) xs : 0 ≤ qsum ((λ x, f x * f x) <$> xs).
Proof.
  induction xs as [|x xs IH]; csimpl; [done|]. rewrite qsum_cons.
  replace 0 with (0 + 0) by ring.
  apply Qcplus_le_compat; [apply Qc_sq_nonneg | done].
Qed.

Lemma qsum_squares_zero (f : Qc → Qc) xs x :
  qsum ((λ x, f x * f x) <$> xs) = 0 → x ∈ xs → f x = 0.
Proof.
  induction xs as [|x0 xs IH]; csimpl; intros H Hin; [by apply elem_of_nil in Hin|].
  rewrite qsum_cons in H. apply Qc_nonneg_sum_zero in H as [H0 H1];
    [|apply Qc_sq_nonneg|apply qsum_squares_nonneg].
  apply elem_of_cons in Hin as [->|Hin]; [by apply Qc_sq_zero | by apply IH].
Qed.

(** [Σ (u x + v)² = u² Σx² + 2 u v Σx + n v²] *)
Lemma qsum_squares_affine u v xs :
  qsum ((λ x, (u * x + v) * (u * x + v)) <$> xs)
  = u * u * dot xs xs + 2 * u * v * qsum xs + rows xs * v * v.
Proof.
  unfold dot. induction xs as [|x xs IH]; csimpl.
  - rewrite rows_nil, !qsum_nil. ring.
  - rewrite rows_cons, !qsum_cons, IH. ring.
Qed.


(** The sums of a column that lies on the line [y = k x + m]. *)
Lemma qsum_line k m xs :
  qsum ((λ x, k * x + m) <$> xs) = k * qsum xs + rows xs * m.
Proof.
  induction xs as [|x xs IH]; csimpl.
  - rewrite rows_nil, !qsum_nil. ring.
  - rewrite rows_cons, !qsum_cons, IH. ring.
Qed.


(** [n (n Σx² - (Σx)²) = Σ (n x - Σx)²]: the Gram determinant of the
    Vandermonde matrix is zero only for a constant column. *)
Lemma gram_det_squares xs :
  rows xs * (rows xs * dot xs xs - qsum xs * qsum xs)
  = qsum ((λ x, (rows xs * x + - qsum xs) * (rows xs * x + - qsum xs)) <$> xs).
Proof. rewrite qsum_squares_affine. ring. Qed.

Lemma gram_det_nonzero xs :
  ¬ constant xs → rows xs * dot xs xs - qsum xs * qsum xs ≠ 0.
Proof.
  intros Hnc Hdet. apply Hnc.
  destruct xs as [|x0 xs]; [by exists 0; intros ? ?%elem_of_nil|].
  set (l := x0 :: xs) in *.
  assert (rows l ≠ 0) as Hn.
  { apply not_symmetry, Qclt_not_eq, rows_pos. done. }
  exists (qsum l / rows l). intros x Hx.
  pose proof (gram_det_squares l) as H. rewrite Hdet in H.
  replace (rows l * 0) with 0 in H by ring. symmetry in H.
  pose proof (qsum_squares_zero (λ x, rows l * x + - qsum l) l x H Hx) as Hz.
  simpl in Hz. field_simplify_eq; [|done].
  replace (x * rows l) with (rows l * x + - qsum l + qsum l) by ring.
  rewrite Hz. ring.
Qed.

Lemma qsum_constant xs c : (∀ x, x ∈ xs → x = c) → qsum xs = rows xs * c.
Proof.
  induction xs as [|x xs IH]; intros Hall.
  - rewrite rows_nil, qsum_nil. ring.
  - rewrite rows_cons, qsum_cons, IH, (Hall x) by set_solver. ring.
Qed.

Lemma dot_constant xs ys c :
  length ys = length xs → (∀ x, x ∈ xs → x = c) → dot xs ys = c * qsum ys.
Proof.
  unfold dot. revert ys.
  induction xs as [|x xs IH]; intros [|y ys] Hlen Hall; simplify_eq/=.
  - rewrite qsum_nil. ring.
  - rewrite !qsum_cons, IH, (Hall x) by set_solver. ring.
Qed.

Lemma dot_self_nonzero xs : ¬ constant xs → dot xs xs ≠ 0.
Proof.
  intros Hnc H. apply Hnc. exists 0. intros x Hx.
  apply (qsum_squares_zero (λ x, x) xs x); [|done]. rewrite <-H. unfold dot.
  clear. induction xs as [|x xs IH]; csimpl; [done|]. by rewrite !qsum_cons, IH.
Qed.
End sums.

(** ** The beta/alpha estimator *)

Lemma finite_values_Fin (xs : list Qc) : finite_values (Fin <$> xs) = Some xs.
Proof.
  unfold finite_values. apply mapM_Some, Forall2_fmap_l, Forall_Forall2_diag.
  by apply Forall_true.
Qed.

(** A constant column is cut, whatever its length. *)
Lemma rank_cut_constant (xs : list Qc) :
  constant xs → rank_cut (rows xs) (qsum xs) (dot xs xs).
Proof.
  intros [c Hall]. unfold rank_cut, rcond.
  rewrite (dot_constant xs xs c), (qsum_constant xs c) by done.
  apply Qcle_minus_iff.
  match goal with |- 0 ≤ ?e =>
    replace e with ((2 * (rows xs * c * (rows xs * eps)))
                    * (2 * (rows xs * c * (rows xs * eps)))) by ring end.
  apply Qc_sq_nonneg.
Qed.

Lemma well_conditioned_not_constant (xs : list Qc) :
  well_conditioned xs → ¬ constant xs.
Proof. intros Hwc Hc. by apply Hwc, rank_cut_constant. Qed.

(** The fit of full rank: a market column that is well conditioned. *)
Lemma polyfit1_full_rank (xs ys : list Qc) :
  length ys = length xs → well_conditioned xs →
  polyfit1 (Fin <$> xs) (Fin <$> ys)
  = Returns
      (Fin ((rows xs * dot xs ys - qsum xs * qsum ys)
            / (rows xs * dot xs xs - qsum xs * qsum xs)),
       Fin ((dot xs xs * qsum ys - qsum xs * dot xs ys)
            / (rows xs * dot xs xs - qsum xs * qsum xs))).
Proof.
  intros Hlen Hwc. pose proof (well_conditioned_not_constant xs Hwc) as Hnc.
  unfold polyfit1. rewrite !length_fmap.
  rewrite decide_False.
  2:{ intros H0. apply Hnc. destruct xs; [|done]. by exists 0; intros ? ?%elem_of_nil. }
  rewrite decide_False by (by intros []).
  rewrite !finite_values_Fin. fold (rows xs).
  rewrite decide_False by (by apply dot_self_nonzero).
  by rewrite decide_False by done.
Qed.

(** The fit of rank 1: a market column that is a constant other than 0. *)
Lemma polyfit1_rank_1 (xs ys : list Qc) (c : Qc) :
  length ys = length xs → xs ≠ [] → c ≠ 0 → (∀ x, x ∈ xs → x = c) →
  polyfit1 (Fin <$> xs) (Fin <$> ys)
  = Returns (Fin (qsum ys / rows xs / (2 * c)), Fin (qsum ys / rows xs / 2)).
Proof.
  intros Hlen Hne Hc Hall.
  pose proof (qsum_constant xs c Hall) as Hsx.
  pose proof (dot_constant xs ys c Hlen Hall) as Hsxy.
  assert (dot xs xs = rows xs * c * c) as Hsxx.
  { rewrite (dot_constant xs xs c) by done. rewrite Hsx. ring. }
  assert (rows xs ≠ 0) as Hn by (by apply not_symmetry, Qclt_not_eq, rows_pos).
  unfold polyfit1. rewrite !length_fmap.
  rewrite decide_False by (by destruct xs).
  rewrite decide_False by (by intros []).
  rewrite !finite_values_Fin. fold (rows xs).
  rewrite decide_False.
  2:{ rewrite Hsxx. intros [[H|H]%Qcmult_integral|H]%Qcmult_integral; done. }
  rewrite decide_True by (apply rank_cut_constant; by exists c).
  rewrite Hsx, Hsxx, Hsxy.
  replace (rows xs * (rows xs * c * c) + rows xs * c * (rows xs * c))
    with (2 * (rows xs * c * (rows xs * c))) by ring.
  do 3 f_equal; by field.
Qed.

Lemma calculate_beta_columns (df : DataFrame) stock (x y : Series) :
  getitem df "sp500" = Returns x → getitem df stock = Returns y →
  calculate_beta df stock = polyfit1 x y.
Proof.
  intros Hx Hy. unfold calculate_beta. rewrite Hx, Hy. simpl.
  by destruct (polyfit1 x y) as [[b a]|e].
Qed.

Lemma getitem_Raises (df : DataFrame) col e :
  getitem df col = Raises e → e = "KeyError".
Proof.
  induction df as [|[c s] df IH]; simpl; [by intros [= <-]|].
  by case_decide.
Qed.

Lemma lstsq_on_nan_Raises (x y : Series) e :
  lstsq_on_nan x y = Raises e → e = "LinAlgError".
Proof. unfold lstsq_on_nan. destruct (lstsq_nan x y); [done | by intros [= <-]]. Qed.

Lemma polyfit1_Raises (x y : Series) e :
  polyfit1 x y = Raises e → e = "TypeError" ∨ e = "LinAlgError".
Proof.
  unfold polyfit1. repeat case_decide; try (intros [= <-]; by auto).
  destruct (finite_values x), (finite_values y);
    repeat case_decide; try done;
    intros ?%lstsq_on_nan_Raises; by auto.
Qed.

Lemma calculate_beta_Raises (df : DataFrame) stock e :
  calculate_beta df stock = Raises e →
  e = "KeyError" ∨ e = "TypeError" ∨ e = "LinAlgError".
Proof.
  unfold calculate_beta.
  destruct (getitem df "sp500") as [x|e1] eqn:Hx; simpl;
    [|intros [= <-]; left; by eapply getitem_Raises].
  destruct (getitem df stock) as [y|e2] eqn:Hy; simpl;
    [|intros [= <-]; left; by eapply getitem_Raises].
  destruct (polyfit1 x y) as [[b a]|e3] eqn:Hp; simpl; [done|].
  intros [= <-]. right. by eapply polyfit1_Raises.
Qed.


(** C7, as the code has it: [calculate_beta] has no guard of its own and
    never fails with [InsufficientDataError] or [InvalidInputError].  On a
    table without rows [np.polyfit] raises [TypeError]; on finite data whose
    market column is a constant [c] other than 0, over one row or more, it
    returns the finite pair [beta = mean(y) / (2 c)], [alpha = mean(y) / 2]. *)
Theorem calculate_beta_no_guard (df : DataFrame) (stock : string) :
  calculate_beta df stock ≠ Raises "InsufficientDataError" ∧
  calculate_beta df stock ≠ Raises "InvalidInputError" ∧
  (∀ y, getitem df "sp500" = Returns [] → getitem df stock = Returns y →
     calculate_beta df stock = Raises "TypeError") ∧
  (∀ (xs ys : list Qc) (c : Qc),
     getitem df "sp500" = Returns (Fin <$> xs) →
     getitem df stock = Returns (Fin <$> ys) →
     length ys = length xs → xs ≠ [] → c ≠ 0 → (∀ x, x ∈ xs → x = c) →
     calculate_beta df stock
     = Returns (Fin (qsum ys / rows xs / (2 * c)), Fin (qsum ys / rows xs / 2))).
Proof.
  split; [|split; [|split]].
  - intros H. by destruct (calculate_beta_Raises _ _ _ H) as [?|[?|?]].
  - intros H. by destruct (calculate_beta_Raises _ _ _ H) as [?|[?|?]].
  - intros y Hx Hy. by rewrite (calculate_beta_columns df stock _ _ Hx Hy).
  - intros xs ys c Hx Hy Hlen Hne Hc Hall.
    rewrite (calculate_beta_columns df stock _ _ Hx Hy).
    by apply polyfit1_rank_1.
Qed.

(** ** The CAPM engine *)

Lemma lt_finite (p q : Qc) : lt (Fin p) (Fin q) = bool_decide (p < q).
Proof. done. Qed.

(** C5: the category of a finite beta follows the fixed thresholds 0, 0.8,
    1.2 and 1.5 (the doubles of these literals), each one inclusive below and
    exclusive above; 0.79 is "Low Volatility (Defensive)", 0.80 is "Market
    Average" and 1.2 is "High Volatility (Aggressive)". *)
Theorem get_risk_interpretation_thresholds (q : Qc) :
  (q < 0 →
     (get_risk_interpretation (Fin q)).1
     = "Negative Beta (Inverse Market Relationship)") ∧
  (0 ≤ q < double_0_8 →
     (get_risk_interpretation (Fin q)).1 = "Low Volatility (Defensive)") ∧
  (double_0_8 ≤ q < double_1_2 →
     (get_risk_interpretation (Fin q)).1 = "Market Average") ∧
  (double_1_2 ≤ q < qc 15 10 →
     (get_risk_interpretation (Fin q)).1 = "High Volatility (Aggressive)") ∧
  (qc 15 10 ≤ q →
     (get_risk_interpretation (Fin q)).1
     = "Very High Volatility (Very Aggressive)") ∧
  (get_risk_interpretation (Fin double_0_79)).1 = "Low Volatility (Defensive)" ∧
  (get_risk_interpretation (Fin double_0_8)).1 = "Market Average" ∧
  (get_risk_interpretation (Fin double_1_2)).1 = "High Volatility (Aggressive)".
Proof.
  unfold get_risk_interpretation, of_Z. rewrite !lt_finite.
  repeat split; try compute_done; intros H;
    repeat (case_bool_decide; simpl; try done); exfalso; qc_order.
Qed.

(** C10: [get_risk_interpretation] answers on every float, one of the five
    categories; on NaN every comparison is false and the answer is, without
    any error, the last category. *)
Theorem get_risk_interpretation_total (beta : num) :
  (get_risk_interpretation beta).1 ∈ risk_categories ∧
  lt NaN (of_Z 0) = false ∧ lt NaN (Fin (qc 8 10)) = false ∧
  lt NaN (Fin (qc 12 10)) = false ∧ lt NaN (Fin (qc 15 10)) = false ∧
  (∀ threshold, lt NaN threshold = false) ∧
  get_risk_interpretation NaN = ("Very High Volatility (Very Aggressive)", "🔴").
Proof.
  split; [|done]. unfold get_risk_interpretation, risk_categories.
  repeat case_match; simpl; set_solver.
Qed.

(** The builtin [sum] and [Series.mean] on finite values. *)
Lemma foldl_add_Fin (acc : Qc) (xs : list Qc) :
  foldl add (Fin acc) (Fin <$> xs) = Fin (acc + qsum xs).
Proof.
  revert acc. induction xs as [|x xs IH]; intros acc; csimpl.
  - rewrite qsum_nil. f_equal. ring.
  - rewrite IH, qsum_cons. f_equal. ring.
Qed.

Lemma sum_Fin (xs : list Qc) : sum (Fin <$> xs) = Fin (qsum xs).
Proof.
  unfold sum, of_Z. rewrite foldl_add_Fin. f_equal. rewrite Z2Qc_inj_0. ring.
Qed.

Lemma sum_div_len_Fin (xs : list Qc) :
  xs ≠ [] → sum_div_len (Fin <$> xs) = Returns (Fin (qsum xs / rows xs)).
Proof.
  intros Hne. unfold sum_div_len. rewrite length_fmap.
  rewrite decide_False by (by destruct xs).
  rewrite sum_Fin. unfold of_nat, of_Z. fold (rows xs).
  rewrite div_finite; [done|]. by apply not_symmetry, Qclt_not_eq, rows_pos.
Qed.

Lemma filter_not_nan_Fin (xs : list Qc) :
  filter (λ v, isnan v = false) (Fin <$> xs) = Fin <$> xs.
Proof.
  induction xs as [|x xs IH]; [done|]. csimpl.
  rewrite filter_cons_True by done. by rewrite IH.
Qed.

Lemma mean_Fin (xs : list Qc) : xs ≠ [] → mean (Fin <$> xs) = Fin (qsum xs / rows xs).
Proof.
  intros Hne. unfold mean. rewrite filter_not_nan_Fin, sum_Fin, length_fmap.
  unfold of_nat, of_Z. fold (rows xs).
  rewrite div_finite; [done|]. by apply not_symmetry, Qclt_not_eq, rows_pos.
Qed.

(** C2: the expected return is [rf + beta * (rm - rf)], for every beta,
    risk-free rate and market return.  In the script [rf] is 0, [rm] is the
    mean of the market column times 252, and the value kept for each stock
    of [beta] is that expected return (rounded to two decimals for the
    table).  With [rf = 0], [rm = 10], [beta = 1.5] it is exactly 15. *)
Theorem expected_return_capm (stocks_daily_return : DataFrame) (xs : list Qc)
    (beta : dict num) :
  getitem stocks_daily_return "sp500" = Returns (Fin <$> xs) →
  xs ≠ [] →
  (∀ r b m : Qc, expected_return (Fin r) (Fin b) (Fin m) = Fin (r + b * (m - r))) ∧
  rf = Fin 0 ∧
  rm stocks_daily_return = Returns (Fin (qsum xs / rows xs * Qc_of_Z 252)) ∧
  (∀ i stock (b m : Qc), beta !! i = Some (stock, Fin b) →
     return_value rf (Fin m) beta !! i = Some (round2 (Fin (0 + b * (m - 0))))) ∧
  expected_return (Fin 0) (Fin (qc 15 10)) (Fin (qc 10 1)) = Fin (qc 15 1).
Proof.
  intros Hx Hne. split; [done|]. split.
  { unfold rf, of_Z. by rewrite Z2Qc_inj_0. }
  split.
  { unfold rm. rewrite Hx. simpl. by rewrite mean_Fin. }
  split; [|compute_done].
  intros i stock b m Hi. unfold return_value.
  rewrite list_lookup_fmap, Hi. simpl. unfold rf, of_Z. by rewrite Z2Qc_inj_0.
Qed.

(** ** The portfolio aggregator *)

Lemma final_insight_bands (q : Qc) :
  (q < 1 → final_insight (Fin q) = Conservative) ∧
  (qc 12 10 < q → final_insight (Fin q) = Aggressive) ∧
  (1 ≤ q ≤ qc 12 10 → final_insight (Fin q) = Balanced).
Proof.
  unfold final_insight, gt, of_Z. rewrite !lt_finite.
  repeat split; intros H;
    repeat (case_bool_decide; simpl; try done); exfalso; qc_order.
Qed.

(** C6: on per-asset results that are not empty the summary holds the
    arithmetic mean of the betas, the arithmetic mean of the expected
    returns and the number of assets; the insight is "Conservative" for a
    mean beta below 1, "Aggressive" above 1.2 and "Balanced" otherwise.  On
    the betas 0.8, 1.0 and 1.4 the mean is 16/15 = 1.0666... and the insight
    is "Balanced". *)
Theorem portfolio_summary_spec (results : list (string * Qc * Qc)) :
  results ≠ [] →
  let betas := (λ r, r.1.2) <$> results in
  let returns := (λ r, r.2) <$> results in
  (∃ s, portfolio_summary (result_stocks results) (result_beta results)
          (result_returns results) = Returns s ∧
        avg_beta s = Fin (qsum betas / rows betas) ∧
        avg_return s = Fin (qsum returns / rows returns) ∧
        number_of_stocks s = length results ∧
        (qsum betas / rows betas < 1 → portfolio_insight s = Conservative) ∧
        (qc 12 10 < qsum betas / rows betas → portfolio_insight s = Aggressive) ∧
        (1 ≤ qsum betas / rows betas ≤ qc 12 10 → portfolio_insight s = Balanced)) ∧
  (∃ s, portfolio_summary ["A"; "B"; "C"]
          [("A", Fin (qc 8 10)); ("B", Fin (qc 10 10)); ("C", Fin (qc 14 10))]
          [Fin (qc 8 1); Fin (qc 10 1); Fin (qc 14 1)] = Returns s ∧
        avg_beta s = Fin (qc 16 15) ∧
        lt (Fin (qc 10666 10000)) (avg_beta s) = true ∧
        lt (avg_beta s) (Fin (qc 10667 10000)) = true ∧
        portfolio_insight s = Balanced).
Proof.
  intros Hne betas returns. split.
  - assert ((result_beta results).*2 = Fin <$> betas) as Hb.
    { unfold result_beta, betas. rewrite <-!list_fmap_compose. done. }
    assert (result_returns results = Fin <$> returns) as Hr.
    { unfold result_returns, returns. rewrite <-!list_fmap_compose. done. }
    unfold portfolio_summary. rewrite Hb, Hr.
    rewrite !sum_div_len_Fin by (unfold betas, returns; by destruct results).
    simpl. eexists. split; [done|]. simpl.
    split; [done|]. split; [done|]. split.
    { unfold result_stocks. by rewrite length_fmap. }
    apply final_insight_bands.
  - eexists. split; [vm_compute; reflexivity|]. repeat split; compute_done.
Qed.

(** ** More on [normalize] and [daily_return] *)

Lemma div_one (v : num) : div v (Fin 1) = v.
Proof.
  destruct v as [p| | |]; try done.
  rewrite div_finite by done. f_equal. by field.
Qed.

Lemma normalize_loop_empty_column (rest pre : DataFrame) :
  NoDup (pre ++ rest).*1 →
  (∃ col, (col, []) ∈ rest ∧ col ≠ "Date") →
  normalize_loop rest.*1 (pre ++ rest) = Raises "IndexError".
Proof.
  revert pre. induction rest as [|[c s] rest IH]; intros pre Hnd (col & Hin & Hcol).
  { by apply elem_of_nil in Hin. }
  assert (c ∉ pre.*1) as Hc.
  { rewrite fmap_app, fmap_cons in Hnd. apply NoDup_app in Hnd as (_ & Hnd & _).
    intros Hin'. apply (Hnd _ Hin'). set_solver. }
  assert (∀ s', pre ++ (c, s') :: rest = (pre ++ [(c, s')]) ++ rest) as Hassoc.
  { intros s'. by rewrite <-app_assoc. }
  assert (∀ s', NoDup ((pre ++ [(c, s')]) ++ rest).*1) as Hnd'.
  { intros s'. rewrite <-Hassoc. by rewrite !fmap_app, !fmap_cons in *. }
  simpl. case_decide as Hdate.
  - rewrite getitem_fresh by done. simpl.
    destruct s as [|x0 s]; [done|]. simpl.
    rewrite setitem_fresh by done. rewrite Hassoc. apply IH; [done|].
    exists col. split; [|done].
    apply elem_of_cons in Hin as [[= -> ?]|Hin]; done.
  - rewrite (Hassoc s). apply IH; [done|].
    exists col. split; [|done].
    apply elem_of_cons in Hin as [[= -> ?]|Hin]; [|done].
    by destruct Hdate.
Qed.

(** X1: a table with unique labels makes [normalize] fail exactly when one
    of its columns other than ['Date'] has no row, and the failure is then
    the [IndexError] of [iloc[0]]; [normalize] never fails in another way. *)
Theorem normalize_fails_iff (df : DataFrame) :
  wf_frame df →
  (normalize df = Raises "IndexError" ↔ ∃ col, (col, []) ∈ df ∧ col ≠ "Date") ∧
  (∀ e, normalize df = Raises e → e = "IndexError").
Proof.
  intros Hwf.
  destruct (decide (Exists (λ cs : string * Series, cs.1 ≠ "Date" ∧ cs.2 = []) df))
    as [Hex|Hall].
  - assert (∃ col, (col, []) ∈ df ∧ col ≠ "Date") as Hcol.
    { apply Exists_exists in Hex as ([c s] & Hin & Hc & Hs). simpl in *. subst.
      by exists c. }
    pose proof (normalize_loop_empty_column df [] Hwf Hcol) as Hfail.
    change (normalize df = Raises "IndexError") in Hfail.
    split; [done|]. intros e. rewrite Hfail. by intros [= <-].
  - rewrite normalize_columns; [|done|].
    + split; [|done]. split; [done|]. intros (col & Hin & Hc).
      destruct Hall. apply Exists_exists. by exists (col, []).
    + intros col s Hin Hc ->. apply Hall, Exists_exists. by exists (col, []).
Qed.

Lemma normalize_col_idempotent col (s : Series) (q : Qc) :
  s !! 0%nat = Some (Fin q) → q ≠ 0 →
  normalize_col col (normalize_col col s) = normalize_col col s.
Proof.
  intros Hq Hne. destruct (decide (col = "Date")) as [->|Hc].
  { unfold normalize_col. by rewrite !decide_False by (by intros ?). }
  rewrite (normalize_col_first col s (Fin q)) by done.
  rewrite (normalize_col_first col _ (Fin 1)); [|done|].
  - apply list_eq. intros i. rewrite !list_lookup_fmap.
    destruct (s !! i); simpl; [|done]. f_equal. apply div_one.
  - rewrite list_lookup_fmap, Hq. simpl. f_equal. by apply div_self.
Qed.

(** X2: [normalize] is idempotent: on a table whose columns other than
    ['Date'] start with a finite price that is not zero, normalizing the
    normalized table gives it back unchanged. *)
Theorem normalize_idempotent (df : DataFrame) :
  wf_frame df →
  (∀ col s, (col, s) ∈ df → col ≠ "Date" → ∃ q, s !! 0%nat = Some (Fin q) ∧ q ≠ 0) →
  ∃ df', normalize df = Returns df' ∧ normalize df' = Returns df'.
Proof.
  intros Hwf Hfirst.
  assert (∀ col s, (col, s) ∈ df → col ≠ "Date" → s ≠ []) as Hrows.
  { intros col s Hin Hc. destruct (Hfirst col s Hin Hc) as (q & Hq & _). by intros ->. }
  eexists. split; [by apply normalize_columns|].
  rewrite normalize_columns.
  - f_equal. rewrite <-list_fmap_compose. apply list_fmap_ext.
    intros i [col s] Hi. simpl. f_equal.
    destruct (decide (col = "Date")) as [->|Hc].
    + unfold normalize_col. by rewrite !decide_False by (by intros ?).
    + destruct (Hfirst col s) as (q & Hq & Hne); [|done|].
      { apply list_elem_of_lookup. by exists i. }
      by apply (normalize_col_idempotent col s q).
  - unfold wf_frame, columns. by rewrite (columns_fmap normalize_col).
  - intros col s' [[c s] [[= -> ->] Hin]]%list_elem_of_fmap Hc.
    rewrite <-length_zero_iff_nil, normalize_col_length, length_zero_iff_nil.
    by apply (Hrows c).
Qed.

Lemma daily_return_col_scaled (s : Series) (q0 : Qc) :
  q0 ≠ 0 → (∀ v, v ∈ s → price v) →
  daily_return_col ((λ v, div v (Fin q0)) <$> s) = daily_return_col s.
Proof.
  intros Hq0 Hprice. apply list_eq. intros [|t].
  - destruct (s !! 0%nat) as [x|] eqn:Hx.
    + rewrite (daily_return_col_first s x Hx).
      apply (daily_return_col_first _ (div x (Fin q0))).
      by rewrite list_lookup_fmap, Hx.
    + rewrite !(proj2 (lookup_ge_None _ _)); [done|..];
        rewrite ?daily_return_col_length, ?length_fmap; by apply lookup_ge_None.
  - destruct (s !! S t) as [vp|] eqn:Hp.
    + assert (is_Some (s !! t)) as [vq Hq].
      { apply lookup_lt_is_Some. apply lookup_lt_Some in Hp. lia. }
      destruct (Hprice vp) as (p & -> & Hpne); [by eapply list_elem_of_lookup_2|].
      destruct (Hprice vq) as (q & -> & Hqne); [by eapply list_elem_of_lookup_2|].
      rewrite (daily_return_col_finite s t p q Hq Hp Hqne).
      rewrite (daily_return_col_finite _ t (p / q0) (q / q0)).
      * do 2 f_equal. by field.
      * rewrite list_lookup_fmap, Hq. simpl. by rewrite decide_False.
      * rewrite list_lookup_fmap, Hp. simpl. by rewrite decide_False.
      * intros H0. apply Hqne. replace q with (q / q0 * q0) by (by field).
        rewrite H0. ring.
    + rewrite !(proj2 (lookup_ge_None _ _)); [done|..];
        rewrite ?daily_return_col_length, ?length_fmap; by apply lookup_ge_None.
Qed.

(** X3: the returns do not see the scale of the prices: on a table with at
    least one row whose prices are finite and not zero, the daily returns of
    the normalized table are the daily returns of the table itself. *)
Theorem daily_return_normalize (df : DataFrame) :
  wf_frame df →
  (∀ col s, (col, s) ∈ df → col ≠ "Date" → s ≠ [] ∧ ∀ v, v ∈ s → price v) →
  ∃ df', normalize df = Returns df' ∧ daily_return df' = daily_return df.
Proof.
  intros Hwf Hprices. eexists. split.
  { apply normalize_columns; [done|]. intros col s Hin Hc. by apply (Hprices col s). }
  rewrite !daily_return_columns;
    [|done|unfold wf_frame, columns; by rewrite (columns_fmap normalize_col)].
  f_equal. rewrite <-list_fmap_compose. apply list_fmap_ext.
  intros i [col s] Hi. simpl. f_equal.
  unfold daily_return_of, normalize_col. case_decide as Hc; [|done].
  destruct (Hprices col s) as [Hne Hp]; [by eapply list_elem_of_lookup_2|done|].
  destruct s as [|x0 s]; [done|].
  destruct (Hp x0) as (q0 & -> & Hq0); [set_solver|].
  by apply daily_return_col_scaled.
Qed.

(** X4: the prices come back from the returns: in every column but ['Date'],
    a finite price that follows a finite price other than zero is that
    price times [1 + r / 100], where [r] is the return of its row. *)
Theorem daily_return_price_round_trip (df df' : DataFrame) i col (s s' : Series) :
  wf_frame df →
  daily_return df = Returns df' →
  df !! i = Some (col, s) → df' !! i = Some (col, s') → col ≠ "Date" →
  ∀ t (p q : Qc), s !! t = Some (Fin q) → s !! S t = Some (Fin p) → q ≠ 0 →
    ∃ r : Qc, s' !! S t = Some (Fin r) ∧ p = q * (1 + r / Qc_of_Z 100).
Proof.
  intros Hwf Hret Hi Hi' Hc t p q Hq Hp Hne.
  rewrite daily_return_columns in Hret by done. injection Hret as <-.
  rewrite (lookup_fmap_column daily_return_of df i col s Hi) in Hi'.
  injection Hi' as <-. unfold daily_return_of. rewrite decide_True by done.
  eexists. split; [by apply daily_return_col_finite|].
  assert (Qc_of_Z 100 ≠ 0) by compute_done. by field.
Qed.

(** ** More on [calculate_beta] *)

Lemma getitem_missing (df : DataFrame) col :
  col ∉ columns df → getitem df col = Raises "KeyError".
Proof.
  unfold columns. induction df as [|[c s] df IH]; simpl; intros Hin; [done|].
  rewrite decide_False by set_solver. apply IH. set_solver.
Qed.

Lemma getitem_KeyError_iff (df : DataFrame) col e :
  getitem df col = Raises e ↔ col ∉ columns df ∧ e = "KeyError".
Proof.
  split.
  - intros Hraise. split; [|by eapply getitem_Raises].
    intros (s & Hs & _)%getitem_Some. by rewrite Hs in Hraise.
  - intros [Hin ->]. by apply getitem_missing.
Qed.

(** X5: [calculate_beta] fails with [KeyError] exactly when the table has no
    ['sp500'] column or no column of the stock. *)
Theorem calculate_beta_KeyError_iff (df : DataFrame) (stock : string) :
  calculate_beta df stock = Raises "KeyError"
  ↔ "sp500" ∉ columns df ∨ stock ∉ columns df.
Proof.
  unfold calculate_beta. split.
  - destruct (getitem df "sp500") as [x|e1] eqn:Hx; simpl.
    2:{ intros _. left. by apply getitem_KeyError_iff in Hx as [? _]. }
    destruct (getitem df stock) as [y|e2] eqn:Hy; simpl.
    2:{ intros _. right. by apply getitem_KeyError_iff in Hy as [? _]. }
    destruct (polyfit1 x y) as [[b a]|e3] eqn:Hp; simpl; [done|].
    intros [= ->]. by destruct (polyfit1_Raises _ _ _ Hp).
  - destruct (decide ("sp500" ∈ columns df)) as [Hm|Hm].
    + intros [?|Hs]; [done|].
      destruct (getitem_Some df "sp500" Hm) as (x & -> & _). simpl.
      by rewrite (getitem_missing df stock Hs).
    + intros _. by rewrite (getitem_missing df "sp500" Hm).
Qed.


Lemma qsum_Permutation (l l' : list Qc) : l ≡ₚ l' → qsum l = qsum l'.
Proof.
  induction 1 as [|x l l' _ IH|x y l|l l' l'' _ IH1 _ IH2].
  - done.
  - by rewrite !qsum_cons, IH.
  - rewrite !qsum_cons. ring.
  - by rewrite IH1.
Qed.

Lemma dot_zip (xs ys : list Qc) :
  dot xs ys = qsum ((λ p, p.1 * p.2) <$> zip xs ys).
Proof.
  unfold dot. revert ys. induction xs as [|x xs IH]; intros [|y ys]; csimpl; try done.
  by rewrite !qsum_cons, IH.
Qed.

Lemma dot_self_zip (xs ys : list Qc) :
  length ys = length xs →
  dot xs xs = qsum ((λ p, p.1 * p.1) <$> zip xs ys).
Proof.
  unfold dot. revert ys. induction xs as [|x xs IH]; intros [|y ys] Hlen;
    simplify_eq/=; [done|].
  by rewrite !qsum_cons, (IH ys).
Qed.

Lemma polyfit1_fit (xs ys : list Qc) :
  length ys = length xs → dot xs xs ≠ 0 →
  polyfit1 (Fin <$> xs) (Fin <$> ys)
  = fit (rows xs) (qsum xs) (qsum ys) (dot xs xs) (dot xs ys).
Proof.
  intros Hlen Hsxx. unfold polyfit1, fit. rewrite !length_fmap.
  rewrite decide_False.
  2:{ intros H0. apply Hsxx. by destruct xs. }
  rewrite decide_False by (by intros []).
  rewrite !finite_values_Fin. fold (rows xs).
  by rewrite decide_False by done.
Qed.

(** X7: the fit does not depend on the order of the rows: two tables whose
    (market, stock) rows are the same up to their order, with finite values
    and a market column that is not zero everywhere, give the same beta and
    alpha. *)
Theorem calculate_beta_row_order (df df' : DataFrame) (stock : string)
    (xs ys xs' ys' : list Qc) :
  getitem df "sp500" = Returns (Fin <$> xs) →
  getitem df stock = Returns (Fin <$> ys) →
  getitem df' "sp500" = Returns (Fin <$> xs') →
  getitem df' stock = Returns (Fin <$> ys') →
  length ys = length xs → length ys' = length xs' →
  zip xs ys ≡ₚ zip xs' ys' →
  dot xs xs ≠ 0 →
  calculate_beta df stock = calculate_beta df' stock.
Proof.
  intros Hx Hy Hx' Hy' Hlen Hlen' Hperm Hsxx.
  rewrite (calculate_beta_columns df stock _ _ Hx Hy).
  rewrite (calculate_beta_columns df' stock _ _ Hx' Hy').
  assert (rows xs = rows xs') as Hn.
  { unfold rows. do 2 f_equal. apply Permutation_length in Hperm.
    rewrite !length_zip in Hperm. lia. }
  assert (qsum xs = qsum xs') as Hsx.
  { rewrite <-(fst_zip xs ys), <-(fst_zip xs' ys') by lia.
    by apply qsum_Permutation, fmap_Permutation. }
  assert (qsum ys = qsum ys') as Hsy.
  { rewrite <-(snd_zip xs ys), <-(snd_zip xs' ys') by lia.
    by apply qsum_Permutation, fmap_Permutation. }
  assert (dot xs ys = dot xs' ys') as Hsxy.
  { rewrite !dot_zip. by apply qsum_Permutation, fmap_Permutation. }
  assert (dot xs xs = dot xs' xs') as Hsxx'.
  { rewrite (dot_self_zip xs ys), (dot_self_zip xs' ys') by done.
    by apply qsum_Permutation, fmap_Permutation. }
  rewrite !polyfit1_fit by (done || by rewrite <-Hsxx').
  by rewrite Hn, Hsx, Hsy, Hsxy, Hsxx'.
Qed.

Lemma dot_affine (k m : Qc) (xs ys : list Qc) :
  length ys = length xs →
  dot xs ((λ y, k * y + m) <$> ys) = k * dot xs ys + m * qsum xs.
Proof.
  unfold dot. revert ys. induction xs as [|x xs IH]; intros [|y ys] Hlen;
    simplify_eq/=.
  - rewrite !qsum_nil. ring.
  - rewrite !qsum_cons, (IH ys) by done. ring.
Qed.

(** X8: the fit follows an affine change of the stock's returns: when a
    second column holds [k y + m] for every return [y] of the first, over a
    market column that is well conditioned, its beta is [k] times the beta
    of the first and its alpha is [k] times the alpha of the first plus [m]. *)
Theorem calculate_beta_affine (df : DataFrame) (stock stock' : string)
    (xs ys : list Qc) (k m : Qc) :
  getitem df "sp500" = Returns (Fin <$> xs) →
  getitem df stock = Returns (Fin <$> ys) →
  getitem df stock' = Returns (Fin <$> ((λ y, k * y + m) <$> ys)) →
  length ys = length xs →
  well_conditioned xs →
  ∃ b a : Qc,
    calculate_beta df stock = Returns (Fin b, Fin a) ∧
    calculate_beta df stock' = Returns (Fin (k * b), Fin (k * a + m)).
Proof.
  intros Hx Hy Hy' Hlen Hwc.
  pose proof (well_conditioned_not_constant xs Hwc) as Hnc.
  pose proof (gram_det_nonzero xs Hnc) as Hdet.
  eexists _, _. split.
  { rewrite (calculate_beta_columns df stock _ _ Hx Hy).
    by apply polyfit1_full_rank. }
  rewrite (calculate_beta_columns df stock' _ _ Hx Hy').
  rewrite polyfit1_full_rank by (by rewrite ?length_fmap).
  rewrite dot_affine, qsum_line by done.
  replace (rows ys) with (rows xs) by (unfold rows; by rewrite Hlen).
  do 3 f_equal; by field.
Qed.

(** ** More on the risk category and the recommendations *)

(** X9: the classification is monotone: a larger beta (infinities included)
    never gets a lower place on the scale of the five categories. *)
Theorem get_risk_interpretation_monotone (beta beta' : num) :
  lt beta beta' = true →
  ∃ i j, risk_level (get_risk_interpretation beta).1 = Some i ∧
         risk_level (get_risk_interpretation beta').1 = Some j ∧
         (i ≤ j)%nat.
Proof.
  unfold get_risk_interpretation, of_Z.
  destruct beta as [p| | |], beta' as [q| | |]; simpl; try done;
    intros Hlt; try apply bool_decide_eq_true_1 in Hlt;
    repeat (case_bool_decide; simpl);
    try (eexists _, _; split; [vm_compute; reflexivity|];
         split; [vm_compute; reflexivity|]; lia);
    exfalso; qc_order.
Qed.

Lemma get_recommendations_length (beta r : num) (stock : string) :
  length (get_recommendations beta r stock) = 3%nat.
Proof. beta_bands beta; return_bands r; reflexivity. Qed.

Lemma get_recommendations_third (beta r : num) (stock : string) :
  drop 2 (get_recommendations beta r stock)
  = drop 2 (get_recommendations NaN r stock).
Proof.
  beta_bands beta; return_bands r; reflexivity.
Qed.

Lemma get_recommendations_band (beta : num) :
  ∃ rep, rep ∈ band_betas ∧
    (get_risk_interpretation beta).1 = (get_risk_interpretation rep).1 ∧
    ∀ r stock, take 2 (get_recommendations beta r stock)
               = take 2 (get_recommendations rep NaN stock).
Proof.
  unfold band_betas.
  beta_bands beta;
    first
      [ exists NInf; split; [set_solver|]; split; [reflexivity|];
        intros r stock; return_bands r; reflexivity
      | exists (Fin 0); split; [set_solver|]; split; [reflexivity|];
        intros r stock; return_bands r; reflexivity
      | exists (Fin 1); split; [set_solver|]; split; [reflexivity|];
        intros r stock; return_bands r; reflexivity
      | exists (Fin (qc 13 10)); split; [set_solver|]; split; [reflexivity|];
        intros r stock; return_bands r; reflexivity
      | exists NaN; split; [set_solver|]; split; [reflexivity|];
        intros r stock; return_bands r; reflexivity ].
Qed.

(** X10: [get_recommendations] always gives three lines.  The first two
    depend on beta only through its risk category (the bands are those of
    [get_risk_interpretation]), the third does not depend on beta at all. *)
Theorem get_recommendations_by_category (beta beta' r r' : num) (stock : string) :
  length (get_recommendations beta r stock) = 3%nat ∧
  ((get_risk_interpretation beta).1 = (get_risk_interpretation beta').1 →
   take 2 (get_recommendations beta r stock)
   = take 2 (get_recommendations beta' r' stock)) ∧
  drop 2 (get_recommendations beta r stock)
  = drop 2 (get_recommendations beta' r stock).
Proof.
  split; [apply get_recommendations_length|]. split.
  - destruct (get_recommendations_band beta) as (rep & Hrep & Hcat & ->).
    destruct (get_recommendations_band beta') as (rep' & Hrep' & Hcat' & ->).
    rewrite Hcat, Hcat'. clear Hcat Hcat'. unfold band_betas in *.
    repeat (apply elem_of_cons in Hrep as [->|Hrep]);
      try (by apply elem_of_nil in Hrep);
      repeat (apply elem_of_cons in Hrep' as [->|Hrep']);
      try (by apply elem_of_nil in Hrep');
      intros Hc; try reflexivity; vm_compute in Hc; discriminate Hc.
  - by rewrite (get_recommendations_third beta), (get_recommendations_third beta').
Qed.

(** ** The script: betas, expected returns and summary together *)

Lemma dict_set_fresh {V} (d : dict V) (k : string) (v : V) :
  k ∉ d.*1 → dict_set d k v = d ++ [(k, v)].
Proof.
  induction d as [|[k0 v0] d IH]; simpl; intros Hin; [done|].
  rewrite decide_False by set_solver. f_equal. apply IH. set_solver.
Qed.

Lemma fitted_keys (df : DataFrame) (beta alpha : dict num) :
  Forall2 (fitted df) beta alpha → beta.*1 = alpha.*1.
Proof.
  induction 1 as [|sb sa beta alpha [Hkey _] _ IH]; csimpl; [done|].
  by rewrite Hkey, IH.
Qed.

Lemma beta_alpha_loop_acc (df : DataFrame) (stocks : list string)
    (beta0 alpha0 beta alpha : dict num) :
  NoDup stocks →
  (∀ stock, stock ∈ stocks → stock ∉ beta0.*1) →
  Forall2 (fitted df) beta0 alpha0 →
  beta_alpha_loop stocks df beta0 alpha0 = Returns (beta, alpha) →
  Forall2 (fitted df) beta alpha ∧
  beta.*1 = beta0.*1 ++ filter (λ stock, stock ∈ columns df) stocks.
Proof.
  revert beta0 alpha0.
  induction stocks as [|stock rest IH]; intros beta0 alpha0 Hnd Hfresh Hfit; simpl.
  { intros [= <- <-]. by rewrite filter_nil, app_nil_r. }
  apply NoDup_cons in Hnd as [Hstock Hnd].
  case_decide as Hcol.
  - destruct (calculate_beta df stock) as [[b a]|e] eqn:Hcb; simpl; [|done].
    assert (stock ∉ beta0.*1) as Hb by (apply Hfresh; set_solver).
    assert (stock ∉ alpha0.*1) as Ha by (by rewrite <-(fitted_keys df beta0 alpha0)).
    rewrite !dict_set_fresh by done. intros Hloop.
    apply IH in Hloop as [Hfit' Hkeys]; [| done | | ].
    + split; [done|]. rewrite Hkeys, fmap_app, <-app_assoc.
      by rewrite filter_cons_True by done.
    + intros s Hs. rewrite fmap_app. csimpl.
      intros [Hin|Hin]%elem_of_app.
      * by apply (Hfresh s); [set_solver|].
      * apply list_elem_of_singleton in Hin as ->. done.
    + apply Forall2_app; [done|]. by repeat constructor.
  - intros Hloop. apply IH in Hloop as [Hfit' Hkeys]; [|done| |done].
    + split; [done|]. by rewrite Hkeys, filter_cons_False by done.
    + intros s Hs. apply Hfresh. set_solver.
Qed.

(** X11: when the loop over the stocks (without repetition) returns, [beta]
    and [alpha] hold the same stocks in the same order: those of the list
    that are columns of the table, each once, each with the beta and the
    alpha [calculate_beta] returned for it. *)
Theorem beta_alpha_loop_fitted (df : DataFrame) (stocks : list string)
    (beta alpha : dict num) :
  NoDup stocks →
  beta_alpha_loop stocks df [] [] = Returns (beta, alpha) →
  beta.*1 = filter (λ stock, stock ∈ columns df) stocks ∧
  alpha.*1 = beta.*1 ∧
  Forall2 (fitted df) beta alpha.
Proof.
  intros Hnd Hloop.
  apply beta_alpha_loop_acc in Hloop as [Hfit Hkeys]; [|done| |constructor].
  - split; [done|]. split; [|done]. symmetry. by eapply fitted_keys.
  - intros ? _ ?%elem_of_nil. done.
Qed.

Lemma valid_stocks_NoDup (df : DataFrame) : wf_frame df → NoDup (valid_stocks df).
Proof. unfold valid_stocks. apply NoDup_filter. Qed.

Lemma filter_Forall_id {A} (P : A → Prop) `{!∀ x, Decision (P x)} (l : list A) :
  Forall P l → filter P l = l.
Proof.
  induction 1 as [|x l Hx _ IH]; [done|].
  by rewrite filter_cons_True, IH by done.
Qed.

Lemma valid_stocks_columns (df df' : DataFrame) :
  columns df' = columns df →
  filter (λ stock, stock ∈ columns df') (valid_stocks df) = valid_stocks df.
Proof.
  intros Hcols. apply filter_Forall_id, Forall_forall. intros c. rewrite Hcols.
  unfold valid_stocks. by intros [_ ?]%list_elem_of_filter.
Qed.

Lemma return_value_length (rf0 rm0 : num) (beta : dict num) :
  length (return_value rf0 rm0 beta) = length beta.
Proof. unfold return_value. apply length_fmap. Qed.

Lemma sum_div_len_Returns (xs : list num) :
  xs ≠ [] → sum_div_len xs = Returns (div (sum xs) (of_nat (length xs))).
Proof. intros Hne. unfold sum_div_len. rewrite decide_False; [done|]. by destruct xs. Qed.

Lemma sum_div_len_Raises (xs : list num) e :
  sum_div_len xs = Raises e ↔ xs = [] ∧ e = "ZeroDivisionError".
Proof.
  unfold sum_div_len. case_decide as Hlen.
  - apply length_zero_iff_nil in Hlen as ->. split; [by intros [= <-]|by intros [_ ->]].
  - split; [done|]. intros [-> _]. done.
Qed.

(** X12: the summary fails exactly when there is no beta or no expected
    return to average, always with [ZeroDivisionError]; on lists that are
    not empty it returns a summary whatever the values are (NaN and
    infinities included). *)
Theorem portfolio_summary_fails_iff (stocks_list : list string) (beta : dict num)
    (return_value : list num) :
  (∀ e, portfolio_summary stocks_list beta return_value = Raises e
        ↔ (beta = [] ∨ return_value = []) ∧ e = "ZeroDivisionError") ∧
  (beta ≠ [] → return_value ≠ [] →
   ∃ s, portfolio_summary stocks_list beta return_value = Returns s).
Proof.
  unfold portfolio_summary. split.
  - intros e. destruct (sum_div_len beta.*2) as [b|e1] eqn:Hb; simpl.
    + assert (beta ≠ []) as Hbeta.
      { intros ->. discriminate Hb. }
      destruct (sum_div_len return_value) as [r|e2] eqn:Hr; simpl.
      * split; [done|]. intros [[?|Hnil] _]; [done|]. subst. discriminate Hr.
      * apply sum_div_len_Raises in Hr as [-> ->].
        split; [intros [= <-]; by auto|]. by intros [_ ->].
    + apply sum_div_len_Raises in Hb as [Hb ->].
      apply fmap_nil_inv in Hb as ->.
      split; [intros [= <-]; by auto|]. by intros [_ ->].
  - intros Hb Hr.
    rewrite (sum_div_len_Returns beta.*2) by (by intros ?%fmap_nil_inv).
    rewrite (sum_div_len_Returns return_value) by done. simpl. by eexists.
Qed.

Lemma add_nan_r (x : num) : add x NaN = NaN.
Proof. by destruct x. Qed.

Lemma foldl_add_nan (xs : list num) : foldl add NaN xs = NaN.
Proof. induction xs as [|x xs IH]; [done|]. simpl. exact IH. Qed.

Lemma sum_nan (acc : num) (xs : list num) : NaN ∈ xs → foldl add acc xs = NaN.
Proof.
  revert acc. induction xs as [|x xs IH]; intros acc Hin; [by apply elem_of_nil in Hin|].
  simpl. apply elem_of_cons in Hin as [<-|Hin]; [|by apply IH].
  rewrite add_nan_r. apply foldl_add_nan.
Qed.

(** X13: one beta that is NaN is enough: the average beta of the summary is
    then NaN, every comparison with it is false and the portfolio is called
    "Balanced". *)
Theorem portfolio_summary_nan_beta (stocks_list : list string) (beta : dict num)
    (return_value : list num) :
  NaN ∈ beta.*2 → return_value ≠ [] →
  ∃ s, portfolio_summary stocks_list beta return_value = Returns s ∧
       avg_beta s = NaN ∧ portfolio_insight s = Balanced.
Proof.
  intros Hnan Hr. unfold portfolio_summary.
  rewrite (sum_div_len_Returns beta.*2)
    by (intros Hnil; rewrite Hnil in Hnan; by apply elem_of_nil in Hnan).
  rewrite (sum_div_len_Returns return_value) by done.
  simpl. eexists. split; [done|]. simpl.
  unfold sum. by rewrite (sum_nan _ _ Hnan).
Qed.

(** X14: the CAPM line: a beta of 0 earns the risk-free rate, a beta of 1
    earns the market return, with the risk-free rate 0 of the script the
    expected return is beta times the market return, and when the market
    return is not below the risk-free rate a larger beta never has a smaller
    expected return. *)
Theorem expected_return_line (r m : Qc) :
  expected_return (Fin r) (Fin 0) (Fin m) = Fin r ∧
  expected_return (Fin r) (Fin 1) (Fin m) = Fin m ∧
  (∀ b, expected_return rf (Fin b) (Fin m) = Fin (b * m)) ∧
  (r ≤ m → ∀ b b', b ≤ b' →
     ∃ e e', expected_return (Fin r) (Fin b) (Fin m) = Fin e ∧
             expected_return (Fin r) (Fin b') (Fin m) = Fin e' ∧ e ≤ e').
Proof.
  unfold expected_return, rf, of_Z, sub, add, mul, neg. rewrite Z2Qc_inj_0.
  split; [f_equal; ring|]. split; [f_equal; ring|]. split; [intros b; f_equal; ring|].
  intros Hrm b b' Hb. eexists _, _. split; [done|]. split; [done|].
  apply Qcle_minus_iff.
  replace (r + b' * (m + - r) + - (r + b * (m + - r)))
    with ((b' + - b) * (m + - r)) by ring.
  apply Qcle_minus_iff in Hrm, Hb.
  pose proof (Qcmult_le_compat_r 0 (b' + - b) (m + - r) Hb Hrm) as H.
  by rewrite Qcmult_0_l in H.
Qed.

(** ** Rounding to two decimals *)

Lemma round_half_even_bound (q : Qc) :
  Qc_of_Z (round_half_even q) - qc 1 2 ≤ q ∧
  q ≤ Qc_of_Z (round_half_even q) + qc 1 2.
Proof.
  unfold round_half_even.
  pose proof (Qfloor_le q) as Hlo. pose proof (Qlt_floor q) as Hhi.
  rewrite inject_Z_plus in Hhi. change (inject_Z 1) with 1%Q in Hhi.
  set (f := Qfloor q) in *.
  assert (∀ z, (Qc_of_Z z : Q) = inject_Z z) as Hz by done.
  repeat case_decide; try destruct (Z.even f);
    unfold Qcle, Qclt, Qcminus, Qcplus, Qcopp, qc, Q2Qc in *; cbn [this] in *;
    rewrite ?Hz in *; rewrite ?inject_Z_plus in *;
    change (inject_Z 1) with 1%Q in *;
    repeat match goal with
           | H : context [Qred ?c] |- _ => setoid_rewrite (Qred_correct c) in H
           | |- context [Qred ?c] => setoid_rewrite (Qred_correct c)
           end;
    lra.
Qed.

Lemma round2_bound (q : Qc) :
  ∃ r, round2 (Fin q) = Fin r ∧ q - qc 1 200 ≤ r ∧ r ≤ q + qc 1 200.
Proof.
  eexists. split; [done|].
  destruct (round_half_even_bound (q * qc 100 1)) as [Hlo Hhi].
  set (n := Qc_of_Z (round_half_even (q * qc 100 1))) in *.
  assert (0 < qc 100 1) as H100 by compute_done.
  assert (qc 100 1 ≠ 0) as H100' by compute_done.
  assert (qc 1 200 * qc 100 1 = qc 1 2) as Hhalf by compute_done.
  split; apply (Qcmult_lt_0_le_reg_r _ _ (qc 100 1) H100).
  - replace ((q - qc 1 200) * qc 100 1) with (q * qc 100 1 - qc 1 200 * qc 100 1) by ring.
    replace (n / qc 100 1 * qc 100 1) with n by (by field).
    rewrite Hhalf. apply Qcle_minus_iff. apply Qcle_minus_iff in Hhi.
    by replace (n + - (q * qc 100 1 - qc 1 2)) with (n + qc 1 2 + - (q * qc 100 1)) by ring.
  - replace ((q + qc 1 200) * qc 100 1) with (q * qc 100 1 + qc 1 200 * qc 100 1) by ring.
    replace (n / qc 100 1 * qc 100 1) with n by (by field).
    rewrite Hhalf. apply Qcle_minus_iff. apply Qcle_minus_iff in Hlo.
    by replace (q * qc 100 1 + qc 1 2 + - n) with (q * qc 100 1 + - (n - qc 1 2)) by ring.
Qed.

(** X15: the expected return kept for a stock in [return_value] is within
    0.005 of the exact [rf + beta (rm - rf)] (here [beta * rm], as [rf] is 0). *)
Theorem return_value_rounding (beta : dict num) (m : Qc) i stock (b : Qc) :
  beta !! i = Some (stock, Fin b) →
  ∃ r, return_value rf (Fin m) beta !! i = Some (Fin r) ∧
       b * m - qc 1 200 ≤ r ∧ r ≤ b * m + qc 1 200.
Proof.
  intros Hi. destruct (round2_bound (b * m)) as (r & Hr & Hlo & Hhi).
  assert (expected_return rf (Fin b) (Fin m) = Fin (b * m)) as He.
  { unfold expected_return, rf, of_Z, sub, add, mul, neg. rewrite Z2Qc_inj_0.
    f_equal. ring. }
  exists r. split; [|done]. rewrite <-Hr, <-He.
  unfold return_value. by rewrite list_lookup_fmap, Hi.
Qed.

Lemma qsum_pointwise_bound {A} (f g : A → Qc) (c : Qc) (l : list A) :
  (∀ x, x ∈ l → f x - c ≤ g x ∧ g x ≤ f x + c) →
  qsum (f <$> l) - rows (f <$> l) * c ≤ qsum (g <$> l) ∧
  qsum (g <$> l) ≤ qsum (f <$> l) + rows (f <$> l) * c.
Proof.
  induction l as [|x l IH]; intros Hb.
  - rewrite !fmap_nil, !qsum_nil, rows_nil. split; apply Qcle_minus_iff;
      by match goal with |- 0 ≤ ?e => replace e with 0 by ring end.
  - rewrite !fmap_cons, !qsum_cons, rows_cons.
    destruct IH as [IHlo IHhi]; [intros; apply Hb; set_solver|].
    destruct (Hb x) as [Hlo Hhi]; [set_solver|].
    set (n := rows (f <$> l)) in *.
    split.
    + replace (f x + qsum (f <$> l) - (n + 1) * c)
        with ((f x - c) + (qsum (f <$> l) - n * c)) by ring.
      by apply Qcplus_le_compat.
    + replace (f x + qsum (f <$> l) + (n + 1) * c)
        with ((f x + c) + (qsum (f <$> l) + n * c)) by ring.
      by apply Qcplus_le_compat.
Qed.

(** X16: the average return of the summary, taken over the rounded values
    of [return_value], is within 0.005 of the mean of the exact expected
    returns [beta * rm] of the stocks. *)
Theorem avg_return_rounding (stocks_list : list string)
    (betas : list (string * Qc)) (m : Qc) :
  betas ≠ [] →
  let beta : dict num := (λ p, (p.1, Fin p.2)) <$> betas in
  let exact : list Qc := (λ p, p.2 * m) <$> betas in
  ∃ s r, portfolio_summary stocks_list beta (return_value rf (Fin m) beta)
         = Returns s ∧
    avg_return s = Fin r ∧
    qsum exact / rows exact - qc 1 200 ≤ r ∧
    r ≤ qsum exact / rows exact + qc 1 200.
Proof.
  intros Hne beta exact.
  set (rnd := λ q : Qc, Qc_of_Z (round_half_even (q * qc 100 1)) / qc 100 1).
  assert (return_value rf (Fin m) beta = Fin <$> ((λ p, rnd (p.2 * m)) <$> betas)) as Hrv.
  { unfold return_value, beta. rewrite <-!list_fmap_compose.
    apply list_fmap_ext. intros i [stock b] _. simpl.
    assert (expected_return rf (Fin b) (Fin m) = Fin (b * m)) as He.
    { unfold expected_return, rf, of_Z, sub, add, mul, neg. rewrite Z2Qc_inj_0.
      f_equal. ring. }
    change (round2 (expected_return rf (Fin b) (Fin m)) = Fin (rnd (b * m))).
    by rewrite He. }
  assert (beta.*2 = Fin <$> (snd <$> betas)) as Hb.
  { unfold beta. rewrite <-!list_fmap_compose. by apply list_fmap_ext. }
  unfold portfolio_summary. rewrite Hb, Hrv.
  rewrite !sum_div_len_Fin by (by destruct betas).
  simpl. eexists _, _. split; [done|]. split; [done|].
  destruct (qsum_pointwise_bound (λ p : string * Qc, p.2 * m)
              (λ p, rnd (p.2 * m)) (qc 1 200) betas) as [Hlo Hhi].
  { intros [stock b] _. simpl.
    destruct (round2_bound (b * m)) as (r & [= <-] & ? & ?). done. }
  fold exact in Hlo, Hhi.
  assert (rows ((λ p, rnd (p.2 * m)) <$> betas) = rows exact) as ->.
  { unfold rows, exact. by rewrite !length_fmap. }
  assert (0 < rows exact) as Hn.
  { apply rows_pos. unfold exact. by destruct betas. }
  assert (rows exact ≠ 0) as Hn' by (by apply not_symmetry, Qclt_not_eq).
  set (sg := qsum ((λ p, rnd (p.2 * m)) <$> betas)) in *.
  split; apply (Qcmult_lt_0_le_reg_r _ _ (rows exact) Hn).
  - replace ((qsum exact / rows exact - qc 1 200) * rows exact)
      with (qsum exact - rows exact * qc 1 200) by (by field).
    by replace (sg / rows exact * rows exact) with sg by (by field).
  - replace ((qsum exact / rows exact + qc 1 200) * rows exact)
      with (qsum exact + rows exact * qc 1 200) by (by field).
    by replace (sg / rows exact * rows exact) with sg by (by field).
Qed.

(** ** The whole analysis *)

Lemma portfolio_summary_Returns (stocks_list : list string) (beta : dict num)
    (return_value : list num) s :
  portfolio_summary stocks_list beta return_value = Returns s →
  beta ≠ [] ∧ number_of_stocks s = length stocks_list.
Proof.
  unfold portfolio_summary.
  destruct (sum_div_len beta.*2) as [b|] eqn:Hb; simpl; [|done].
  destruct (sum_div_len return_value) as [r|] eqn:Hr; simpl; [|done].
  intros [= <-]. split; [|done]. intros ->. discriminate Hb.
Qed.

(** X17: when the analysis of a merged table (unique labels) returns, the
    keys of [beta] and of [alpha] are the valid stocks (every column but
    ['Date'] and ['sp500']) in column order, each with the beta and alpha
    [calculate_beta] found on the table of daily returns; there is one
    expected return per beta, at least one stock, and the number of stocks
    shown is the length of [stocks_list]. *)
Theorem capm_analysis_shape (stocks_list : list string) (merged_df : DataFrame)
    (beta alpha : dict num) (return_value : list num) (summary : PortfolioSummary) :
  wf_frame merged_df →
  capm_analysis stocks_list merged_df = Returns (beta, alpha, return_value, summary) →
  ∃ stocks_daily_return,
    daily_return merged_df = Returns stocks_daily_return ∧
    beta.*1 = valid_stocks merged_df ∧
    alpha.*1 = valid_stocks merged_df ∧
    Forall2 (fitted stocks_daily_return) beta alpha ∧
    length return_value = length beta ∧
    beta ≠ [] ∧
    number_of_stocks summary = length stocks_list.
Proof.
  intros Hwf. unfold capm_analysis.
  rewrite daily_return_columns by done. simpl.
  set (sdr := (λ '(col, s), (col, daily_return_of col s)) <$> merged_df).
  assert (columns sdr = columns merged_df) as Hcols
    by apply (columns_fmap daily_return_of).
  destruct (beta_alpha_loop (valid_stocks merged_df) sdr [] [])
    as [[beta0 alpha0]|] eqn:Hloop; simpl; [|done].
  destruct (rm sdr) as [m|] eqn:Hrm; simpl; [|done].
  destruct (portfolio_summary stocks_list beta0 _) as [s|] eqn:Hsum; simpl; [|done].
  intros [= <- <- <- <-].
  apply beta_alpha_loop_acc in Hloop as [Hfit Hkeys];
    [|by apply valid_stocks_NoDup|by intros ? _ ?%elem_of_nil|constructor].
  rewrite (valid_stocks_columns merged_df sdr Hcols) in Hkeys. simpl in Hkeys.
  apply portfolio_summary_Returns in Hsum as [Hne Hn].
  exists sdr. split; [done|]. split; [done|].
  split; [by rewrite <-(fitted_keys sdr beta0 alpha0)|].
  split; [done|]. split; [apply return_value_length|]. done.
Qed.

Lemma daily_return_col_single (x : num) : daily_return_col [x] = [Fin 0].
Proof.
  apply list_eq. intros [|i].
  - by apply (daily_return_col_first [x] x).
  - rewrite !(proj2 (lookup_ge_None _ _)); [done|..];
      rewrite ?daily_return_col_length; simpl; lia.
Qed.

(** X18: a merged table with a single row leaves nothing to fit: every
    daily return is the defined zero of the first row, the market column of
    the regression is [0] and the column norm of the fit is zero, so for
    every stock [calculate_beta] gives what [lstsq] makes of a system that
    holds NaN (LinAlgError, or the coefficients it hands back), whatever the
    prices are. *)
Theorem calculate_beta_single_row (merged_df stocks_daily_return : DataFrame)
    (stock : string) :
  wf_frame merged_df →
  (∀ col s, (col, s) ∈ merged_df → length s = 1%nat) →
  daily_return merged_df = Returns stocks_daily_return →
  "sp500" ∈ columns merged_df → stock ∈ columns merged_df → stock ≠ "Date" →
  calculate_beta stocks_daily_return stock = lstsq_on_nan [Fin 0] [Fin 0].
Proof.
  intros Hwf Hone Hret Hm Hs Hdate.
  rewrite daily_return_columns in Hret by done. injection Hret as <-.
  set (sdr := (λ '(col, s), (col, daily_return_of col s)) <$> merged_df).
  assert (wf_frame sdr) as Hwf'.
  { unfold wf_frame, columns, sdr. by rewrite (columns_fmap daily_return_of). }
  assert (∀ col, col ∈ columns merged_df → col ≠ "Date" →
          getitem sdr col = Returns [Fin 0]) as Hcol.
  { intros col Hin Hc. apply list_elem_of_fmap in Hin as ([c s] & -> & Hin).
    apply getitem_NoDup; [done|]. apply list_elem_of_fmap. exists (c, s).
    split; [|done]. simpl. f_equal. unfold daily_return_of.
    rewrite decide_True by done.
    specialize (Hone c s Hin). destruct s as [|x [|??]]; simplify_eq/=.
    symmetry. apply daily_return_col_single. }
  rewrite (calculate_beta_columns sdr stock [Fin 0] [Fin 0]);
    [|by apply Hcol|by apply Hcol].
  reflexivity.
Qed.

(** ** The charts *)

Lemma interactive_plot_loop_traces (df rest : DataFrame) (x : Series)
    (fig : list Trace) :
  getitem df "Date" = Returns x →
  (∀ c s, (c, s) ∈ rest → getitem df c = Returns s) →
  interactive_plot_loop rest.*1 df fig
  = Returns (fig ++ (add_scatter <$> traces_of x rest)).
Proof.
  intros Hx. revert fig. induction rest as [|[c s] rest IH]; intros fig Hget.
  { unfold traces_of. by rewrite filter_nil, app_nil_r. }
  csimpl. unfold traces_of. case_decide as Hc.
  - rewrite Hx, (Hget c s) by set_solver. simpl.
    rewrite IH by (intros; apply Hget; set_solver).
    rewrite filter_cons_True by done. unfold traces_of.
    by rewrite !fmap_cons, <-app_assoc.
  - rewrite IH by (intros; apply Hget; set_solver).
    unfold traces_of. by rewrite filter_cons_False by (intros Hn; by apply Hn).
Qed.

Lemma interactive_plot_wf (df : DataFrame) (x : Series) :
  wf_frame df → getitem df "Date" = Returns x →
  interactive_plot df
  = Returns (px_line_trace :: (add_scatter <$> traces_of x df)).
Proof.
  intros Hwf Hx. unfold interactive_plot, columns.
  rewrite (interactive_plot_loop_traces df df x px_line); [done|done|].
  intros c s Hin. by apply getitem_NoDup.
Qed.

Lemma traces_of_names (x : Series) (df : DataFrame) :
  scatter_name <$> traces_of x df = filter (λ c, c ≠ "Date") (columns df).
Proof.
  unfold traces_of, columns. induction df as [|[c s] df IH]; [done|].
  csimpl. destruct (decide (c ≠ "Date")) as [Hc|Hc].
  - rewrite !filter_cons_True by done. csimpl. by rewrite IH.
  - rewrite !filter_cons_False by done. exact IH.
Qed.

Lemma traces_of_elem (x : Series) (df : DataFrame) (t : Scatter) :
  t ∈ traces_of x df →
  scatter_x t = x ∧ scatter_mode t = "lines" ∧ scatter_name t ≠ "Date" ∧
  (scatter_name t, scatter_y t) ∈ df.
Proof.
  unfold traces_of. intros ([c s] & -> & [Hc Hin]%list_elem_of_filter)%list_elem_of_fmap.
  done.
Qed.

(** X19: on a table with unique labels and a ['Date'] column the figure
    of [interactive_plot] holds the empty trace [px.line()] starts with
    and then the traces [interactive_plot] adds: one for each column other
    than ['Date'], in column order and named after it, never one for
    ['Date']; every added trace is drawn as lines over the dates and carries
    the values of its column. *)
Theorem interactive_plot_traces (df : DataFrame) (x : Series) :
  wf_frame df → getitem df "Date" = Returns x →
  ∃ added,
    interactive_plot df = Returns (px_line_trace :: (add_scatter <$> added)) ∧
    scatter_name <$> added = filter (λ c, c ≠ "Date") (columns df) ∧
    ∀ t, t ∈ added →
      scatter_x t = x ∧ scatter_mode t = "lines" ∧
      (scatter_name t, scatter_y t) ∈ df.
Proof.
  intros Hwf Hx. exists (traces_of x df).
  split; [by apply interactive_plot_wf|]. split; [apply traces_of_names|].
  intros t (? & ? & _ & ?)%traces_of_elem. done.
Qed.

(** X20: without a ['Date'] column [interactive_plot] fails with [KeyError]
    at the first column it would draw; only a table without any column gets
    through, with no trace added to the figure of [px.line()]. *)
Theorem interactive_plot_no_date (df : DataFrame) :
  "Date" ∉ columns df →
  interactive_plot df
  = if decide (df = []) then Returns [px_line_trace] else Raises "KeyError".
Proof.
  intros Hdate. destruct df as [|[c s] df]; [done|].
  rewrite decide_False by done.
  unfold interactive_plot. simpl columns. cbn [interactive_plot_loop].
  rewrite decide_True by (unfold columns in Hdate; set_solver).
  by rewrite (getitem_missing _ "Date" Hdate).
Qed.

Lemma getitems_columns (df : DataFrame) (cols : list string) :
  wf_frame df → (∀ c, c ∈ cols → c ∈ columns df) →
  ∃ selected, getitems df cols = Returns selected ∧
    selected.*1 = cols ∧ ∀ cs, cs ∈ selected → cs ∈ df.
Proof.
  intros Hwf. induction cols as [|c cols IH]; intros Hin.
  { exists []. split; [done|]. split; [done|]. by intros ? ?%elem_of_nil. }
  destruct IH as (sel & Hsel & Hkeys & Hsub); [intros; apply Hin; set_solver|].
  destruct (getitem_Some df c) as (s & Hs & Hcs); [apply Hin; set_solver|].
  exists ((c, s) :: sel). split; [simpl; by rewrite Hs, Hsel|].
  split; [by rewrite fmap_cons, Hkeys|].
  intros cs [->|?]%elem_of_cons; [done|by apply Hsub].
Qed.

Lemma valid_stocks_elem (df : DataFrame) (c : string) :
  c ∈ valid_stocks df ↔ c ∈ columns df ∧ c ≠ "Date" ∧ c ≠ "sp500".
Proof. unfold valid_stocks. rewrite list_elem_of_filter. naive_solver. Qed.

(** X21: the two price charts of the script draw the valid stocks and
    nothing else: on a merged table with unique labels, a ['Date'] column
    and stock columns that start with a finite price other than zero, both
    figures hold the empty trace of [px.line()] and then one added trace
    per column other than ['Date'] and ['sp500'], in column order; the added
    traces of the first carry the prices of the table, every added trace of
    the second starts at exactly 1. *)
Theorem price_charts_traces (merged_df : DataFrame) :
  wf_frame merged_df →
  "Date" ∈ columns merged_df →
  (∀ col s, (col, s) ∈ merged_df → col ≠ "Date" → col ≠ "sp500" →
     ∃ q, s !! 0%nat = Some (Fin q) ∧ q ≠ 0) →
  ∃ absolute normalized,
    price_charts merged_df
    = Returns (px_line_trace :: (add_scatter <$> absolute),
               px_line_trace :: (add_scatter <$> normalized)) ∧
    scatter_name <$> absolute = valid_stocks merged_df ∧
    scatter_name <$> normalized = valid_stocks merged_df ∧
    (∀ t, t ∈ absolute → (scatter_name t, scatter_y t) ∈ merged_df) ∧
    (∀ t, t ∈ normalized → scatter_y t !! 0%nat = Some (Fin 1)).
Proof.
  intros Hwf Hdate Hfirst.
  destruct (getitems_columns merged_df ("Date" :: valid_stocks merged_df) Hwf)
    as (sel & Hsel & Hkeys & Hsub).
  { intros c [->|[? _]%valid_stocks_elem]%elem_of_cons; done. }
  assert (wf_frame sel) as Hwfsel.
  { unfold wf_frame, columns. rewrite Hkeys. apply NoDup_cons. split.
    - by intros (_ & ? & _)%valid_stocks_elem.
    - by apply valid_stocks_NoDup. }
  assert (filter (λ c, c ≠ "Date") ("Date" :: valid_stocks merged_df)
          = valid_stocks merged_df) as Hnames.
  { rewrite filter_cons_False by (by intros ?). apply filter_Forall_id, Forall_forall.
    by intros c (_ & ? & _)%valid_stocks_elem. }
  assert (∀ c s, (c, s) ∈ sel → c ≠ "Date" →
          ∃ q, s !! 0%nat = Some (Fin q) ∧ q ≠ 0) as Hfirst'.
  { intros c s Hin Hc. apply (Hfirst c s); [by apply Hsub|done|].
    assert (c ∈ "Date" :: valid_stocks merged_df) as Hcv.
    { rewrite <-Hkeys. apply list_elem_of_fmap. by exists (c, s). }
    apply elem_of_cons in Hcv as [?|(_ & _ & ?)%valid_stocks_elem]; done. }
  destruct (getitem_Some sel "Date") as (x & Hx & _).
  { unfold columns. rewrite Hkeys. set_solver. }
  set (norm := (λ '(col, s), (col, normalize_col col s)) <$> sel).
  assert (normalize sel = Returns norm) as Hnorm.
  { apply normalize_columns; [done|]. intros c s Hin Hc.
    destruct (Hfirst' c s Hin Hc) as (q & Hq & _). by intros ->. }
  assert (wf_frame norm) as Hwfnorm.
  { unfold wf_frame, columns, norm. by rewrite (columns_fmap normalize_col). }
  destruct (getitem_Some norm "Date") as (x' & Hx' & _).
  { unfold columns, norm. rewrite (columns_fmap normalize_col), Hkeys. set_solver. }
  exists (traces_of x sel), (traces_of x' norm). split.
  { unfold price_charts, plot_df. rewrite Hsel. simpl.
    rewrite (interactive_plot_wf sel x Hwfsel Hx). simpl.
    rewrite Hnorm. simpl.
    by rewrite (interactive_plot_wf norm x' Hwfnorm Hx'). }
  split; [by rewrite traces_of_names; unfold columns; rewrite Hkeys|].
  split.
  { rewrite traces_of_names. unfold columns, norm.
    by rewrite (columns_fmap normalize_col), Hkeys. }
  split.
  - intros t (_ & _ & _ & Hin)%traces_of_elem. by apply Hsub.
  - intros t (_ & _ & Hc & Hin)%traces_of_elem.
    apply list_elem_of_fmap in Hin as ([c s] & [= Hname Hy] & Hin).
    rewrite Hname in Hc. rewrite Hy.
    destruct (Hfirst' c s Hin Hc) as (q & Hq & Hne).
    rewrite (normalize_col_first c s (Fin q)) by done.
    rewrite list_lookup_fmap, Hq. simpl. f_equal. by apply div_self.
Qed.

(** ** The columns of a download *)

Lemma prefix_lower (needle hay : string) :
  String.prefix needle hay = true →
  String.prefix (lower needle) (lower hay) = true.
Proof.
  revert hay. induction needle as [|a needle IH]; intros [|b hay]; simpl; try done.
  destruct (ascii_dec a b) as [->|]; [|done]. intros Hp.
  destruct (ascii_dec (lower_ascii b) (lower_ascii b)); [by apply IH|done].
Qed.

Lemma contains_unfold (needle hay : string) :
  contains needle hay
  = if String.prefix needle hay then true
    else match hay with
         | EmptyString => false
         | String _ rest => contains needle rest
         end.
Proof. by destruct hay. Qed.

Lemma contains_lower (needle hay : string) :
  contains needle hay = true → contains (lower needle) (lower hay) = true.
Proof.
  induction hay as [|b hay IH]; rewrite (contains_unfold needle);
    rewrite (contains_unfold (lower needle));
    destruct (String.prefix needle _) eqn:Hp.
  - intros _. by rewrite (prefix_lower _ _ Hp).
  - done.
  - intros _. by rewrite (prefix_lower _ _ Hp).
  - intros Hc. simpl. rewrite (IH Hc). by case_match.
Qed.

Lemma filter_ext_in {A} (P Q : A → Prop) `{!∀ x, Decision (P x), !∀ x, Decision (Q x)}
    (l : list A) :
  (∀ x, x ∈ l → P x ↔ Q x) → filter P l = filter Q l.
Proof.
  induction l as [|x l IH]; intros Hext; [done|].
  rewrite !filter_cons, IH by (intros; apply Hext; set_solver).
  apply decide_ext, Hext. set_solver.
Qed.

Lemma filter_nil_not_elem {A} (P : A → Prop) `{!∀ x, Decision (P x)} (l : list A) x :
  filter P l = [] → x ∈ l → ¬ P x.
Proof.
  intros Hnil Hin HP. assert (x ∈ filter P l) as Hx by (by apply list_elem_of_filter).
  rewrite Hnil in Hx. by apply elem_of_nil in Hx.
Qed.

(** X22: the date column is the first label that is ['index'] or holds
    ['date'] in any case: the other names of [possible_date_names] add
    nothing to the test on the lowered label. *)
Theorem find_date_column_first (cols : list string) :
  find_date_column cols
  = head (filter (λ col, col = "index" ∨ contains "date" (lower col) = true) cols).
Proof.
  induction cols as [|col cols IH]; [done|]. simpl.
  assert (col ∈ possible_date_names ∨ contains "date" (lower col) = true
          ↔ col = "index" ∨ contains "date" (lower col) = true) as Hiff.
  { split; [|unfold possible_date_names; set_solver].
    intros [Hin|?]; [|by right]. unfold possible_date_names in Hin.
    repeat (apply elem_of_cons in Hin as [->|Hin]); try (by right); [by left|].
    by apply elem_of_nil in Hin. }
  case_decide as Hc.
  - by rewrite filter_cons_True by (by apply Hiff).
  - rewrite filter_cons_False by (by rewrite <-Hiff). exact IH.
Qed.

(** X23: the close column is searched among the labels that hold ['close']
    in any case (the test on ['Close'] adds nothing); the second search only
    runs when there is none, and can then only find a label that holds both
    ['adj'] and ['price']. *)
Theorem close_columns_search (cols : list string) :
  close_columns cols
  = let close_cols := filter (λ col, contains "close" (lower col) = true) cols in
    if decide (close_cols = []) then
      filter (λ col, contains "adj" (lower col) = true
                     ∧ contains "price" (lower col) = true) cols
    else close_cols.
Proof.
  unfold close_columns.
  rewrite (list_filter_iff _ (λ col, contains "close" (lower col) = true)).
  2:{ intros col. split; [|by right]. intros [Hc|?]; [|done].
      by apply (contains_lower "Close" col). }
  simpl. case_decide as Hnil; [|done].
  apply filter_ext_in. intros col Hin.
  pose proof (filter_nil_not_elem _ _ col Hnil Hin). naive_solver.
Qed.










(** ** Loading the stocks *)

Lemma load_loop_acc (yf_download : string → Downloaded) (stocks : list string)
    (stock_dfs : list DataFrame) (failed_stocks : list string) :
  ∃ dfs,
    load_loop yf_download stocks stock_dfs failed_stocks
    = (stock_dfs ++ dfs,
       failed_stocks ++ filter (λ s, loads yf_download s ≠ true) stocks)
    ∧ Forall2 (λ s df, prepare_yfinance_data (yf_download s) s = Returns df)
        (filter (λ s, loads yf_download s = true) stocks) dfs.
Proof.
  revert stock_dfs failed_stocks.
  induction stocks as [|stock rest IH]; intros stock_dfs failed_stocks.
  { exists []. by rewrite !app_nil_r. }
  simpl.
  destruct (prepare_yfinance_data (yf_download stock) stock) as [df|e] eqn:Hrun.
  - assert (loads yf_download stock = true) as Hloads
      by (unfold loads; by rewrite Hrun).
    destruct (IH (stock_dfs ++ [df]) failed_stocks) as (dfs & -> & Hdfs).
    exists (df :: dfs). rewrite <-app_assoc.
    rewrite filter_cons_False by (by intros Hn; apply Hn).
    rewrite filter_cons_True by done. split; [done|]. by constructor.
  - assert (loads yf_download stock = false) as Hloads
      by (unfold loads; by rewrite Hrun).
    destruct (IH stock_dfs (failed_stocks ++ [stock])) as (dfs & -> & Hdfs).
    exists dfs. rewrite <-app_assoc.
    rewrite filter_cons_True by (by rewrite Hloads).
    by rewrite filter_cons_False by (by rewrite Hloads).
Qed.

(** The stocks the script goes on with are those that loaded. *)
Lemma stocks_list_loaded (yf_download : string → Downloaded)
    (selected : list string) :
  let failed_stocks := filter (λ s, loads yf_download s ≠ true) selected in
  (if decide (failed_stocks ≠ [])
   then filter (λ s, s ∉ failed_stocks) selected else selected)
  = filter (λ s, loads yf_download s = true) selected.
Proof.
  intros failed_stocks.
  assert (filter (λ s, s ∉ failed_stocks) selected
          = filter (λ s, loads yf_download s = true) selected) as Hfilter.
  { apply filter_ext_in. intros s Hs. unfold failed_stocks.
    rewrite list_elem_of_filter. destruct (loads yf_download s); naive_solver. }
  case_decide as Hfailed; [done|].
  rewrite <-Hfilter, Hfailed. symmetry.
  apply filter_Forall_id, Forall_forall. intros s _. apply not_elem_of_nil.
Qed.

(** X25: after the loading loop, on a selection without repetition,
    [stocks_list] holds exactly the selected stocks whose data could be
    prepared, in the order of the selection, and [stock_dfs] holds their
    frames in the same order: one frame per stock left, each the frame
    [prepare_yfinance_data] returned for it. *)
Theorem load_stocks_spec (yf_download : string → Downloaded)
    (selected stocks_list : list string) (stock_dfs : list DataFrame) :
  NoDup selected →
  load_stocks yf_download selected = (stock_dfs, stocks_list) →
  stocks_list = filter (λ s, loads yf_download s = true) selected
  ∧ Forall2 (λ s df, prepare_yfinance_data (yf_download s) s = Returns df)
      stocks_list stock_dfs.
Proof.
  intros _. unfold load_stocks.
  destruct (load_loop_acc yf_download selected [] []) as (dfs & -> & Hdfs).
  simpl. intros [= <- <-].
  pose proof (stocks_list_loaded yf_download selected) as Hloaded.
  simpl in Hloaded. by rewrite Hloaded.
Qed.

(** ** The script: from the selection to the summary *)













End properties.

(** ** Worked examples

    The tables of the examples hold no missing price and no market column
    that is all zero, and their dates are dates already: what they show does
    not depend on [libraries_example]. *)

Example daily_return_prices_example :
  daily_return prices_example = Returns returns_example.
Proof. compute_done. Qed.

Example calculate_beta_returns_example :
  calculate_beta returns_example "asset"
  = Returns (Fin (qc 135 61), Fin (qc (-45) 61)).
Proof. compute_done. Qed.

Example capm_analysis_prices_example :
  capm_analysis ["asset"] prices_example
  = Returns ([("asset", Fin (qc 135 61))], [("asset", Fin (qc (-45) 61))],
             [Fin (qc 18590 100)],
             {| avg_beta := Fin (qc 135 61);
                avg_return := Fin (qc 18590 100);
                number_of_stocks := 1;
                portfolio_insight := Aggressive |}).
Proof. compute_done. Qed.

Example round2_ties_to_even :
  round2 (Fin (qc 125 1000)) = Fin (qc 12 100) ∧
  round2 (Fin (qc 135 1000)) = Fin (qc 14 100) ∧
  round2 (Fin (qc (-1251) 1000)) = Fin (qc (-125) 100).
Proof. repeat split; compute_done. Qed.

Example normalize_empty_table :
  normalize [("Date", []); ("asset", [])] = Raises "IndexError".
Proof. reflexivity. Qed.

Example calculate_beta_empty_table :
  calculate_beta [("asset", []); ("sp500", [])] "asset" = Raises "TypeError".
Proof. reflexivity. Qed.

Lemma market_returns_well_conditioned : well_conditioned market_returns.
Proof. unfold well_conditioned. compute_done. Qed.


Lemma expected_return_capm_witness :
  rm returns_example = Returns (Fin (qsum market_returns / rows market_returns * Qc_of_Z 252)) ∧
  return_value rf (Fin (qc 84 1)) [("asset", Fin (qc 135 61))] !! 0%nat
  = Some (round2 (Fin (0 + qc 135 61 * (qc 84 1 - 0)))).
Proof.
  destruct (expected_return_capm returns_example market_returns
              [("asset", Fin (qc 135 61))])
    as (_ & _ & Hrm & Hloop & _).
  - reflexivity.
  - discriminate.
  - split; [exact Hrm|]. apply (Hloop 0%nat "asset"). reflexivity.
Defined.

Lemma prices_example_wf : wf_frame prices_example.
Proof. unfold wf_frame, columns. compute_done. Defined.

Lemma daily_return_spec_witness :
  wf_frame prices_example ∧
  ∃ df', daily_return prices_example = Returns df' ∧
    columns df' = columns prices_example.
Proof.
  split; [exact prices_example_wf|].
  destruct (daily_return_spec prices_example prices_example_wf)
    as (df' & H1 & H2 & _).
  by exists df'.
Defined.


Lemma zero_priced_wf : wf_frame zero_priced.
Proof. unfold wf_frame, columns. compute_done. Defined.

Lemma normalize_zero_first_price_witness :
  ∃ df' s', normalize zero_priced = Returns df' ∧ ("penny", s') ∈ df' ∧
    s' !! 0%nat = Some NaN.
Proof.
  destruct (normalize_zero_first_price zero_priced "penny"
              [Fin 0; Fin (qc 5 1); Fin 0] zero_priced_wf)
    as (df' & s' & H1 & H2 & _ & H3 & _).
  - intros c s0 Hin Hc. unfold zero_priced in Hin.
    repeat (apply elem_of_cons in Hin as [Hin|Hin]); simplify_eq; [done|].
    by apply elem_of_nil in Hin.
  - unfold zero_priced. set_solver.
  - discriminate.
  - reflexivity.
  - by exists df', s'.
Defined.

(** C7 fails on the code: with a constant market column, and with a single
    row, [calculate_beta] returns numbers instead of failing. *)
Lemma calculate_beta_constant_market :
  calculate_beta flat_market "AAPL" = Returns (Fin (qc 3 2), Fin (qc 3 2)) ∧
  calculate_beta flat_market "AAPL" ≠ Raises "InvalidInputError" ∧
  calculate_beta single_row "AAPL" = Returns (Fin 1, Fin 1) ∧
  calculate_beta single_row "AAPL" ≠ Raises "InsufficientDataError".
Proof. repeat split; compute_done. Qed.

(** C8 fails on the code: a column that starts with a price of zero is
    divided by it, and the table returned holds NaN and infinities. *)
Lemma normalize_zero_priced :
  normalize zero_priced
  = Returns [("Date", [of_Z 1; of_Z 2; of_Z 3]); ("penny", [NaN; PInf; NaN])] ∧
  normalize zero_priced ≠ Raises "InvalidInputError".
Proof. split; [compute_done | discriminate]. Qed.

Lemma get_risk_interpretation_thresholds_witness :
  (get_risk_interpretation (Fin (qc 119 100))).1 = "Market Average".
Proof.
  destruct (get_risk_interpretation_thresholds (qc 119 100))
    as (_ & _ & H & _).
  apply H. split; compute_done.
Defined.

Lemma calculate_beta_no_guard_witness :
  calculate_beta flat_market "AAPL"
  = Returns (Fin (qsum [qc 2 1; qc 4 1] / rows [qc 1 1; qc 1 1] / (2 * qc 1 1)),
             Fin (qsum [qc 2 1; qc 4 1] / rows [qc 1 1; qc 1 1] / 2)).
Proof.
  destruct (calculate_beta_no_guard flat_market "AAPL") as (_ & _ & _ & H).
  apply (H [qc 1 1; qc 1 1] [qc 2 1; qc 4 1] (qc 1 1)).
  - compute_done.
  - compute_done.
  - reflexivity.
  - discriminate.
  - compute_done.
  - intros x Hx. repeat (apply elem_of_cons in Hx as [Hx|Hx]); [done..|].
    by apply elem_of_nil in Hx.
Defined.

Lemma portfolio_summary_spec_witness :
  ∃ s, portfolio_summary (result_stocks results_example)
         (result_beta results_example) (result_returns results_example)
       = Returns s ∧
       number_of_stocks s = 3%nat ∧ portfolio_insight s = Balanced.
Proof.
  destruct (portfolio_summary_spec results_example) as [(s & H1 & _ & _ & H2 & _ & _ & H3) _].
  - discriminate.
  - exists s. split; [exact H1|]. split; [exact H2|].
    apply H3. split; compute_done.
Defined.

(** ** The further properties on the example tables *)

Lemma prices_example_start (col : string) (s : Series) :
  (col, s) ∈ prices_example → ∃ q, s !! 0%nat = Some (Fin q) ∧ q ≠ 0.
Proof.
  unfold prices_example. intros Hin.
  repeat (apply elem_of_cons in Hin as [Hin|Hin]); simplify_eq;
    try (eexists; split; [reflexivity|compute_done]).
  by apply elem_of_nil in Hin.
Defined.

Lemma normalize_fails_iff_witness :
  normalize [("Date", [of_Z 1]); ("asset", [])] = Raises "IndexError".
Proof.
  destruct (normalize_fails_iff [("Date", [of_Z 1]); ("asset", [])]) as [H _].
  - unfold wf_frame, columns. compute_done.
  - apply H. exists "asset". split; [set_solver|discriminate].
Defined.

Lemma normalize_idempotent_witness :
  ∃ df', normalize prices_example = Returns df' ∧ normalize df' = Returns df'.
Proof.
  apply (normalize_idempotent prices_example prices_example_wf).
  intros col s Hin _. by apply (prices_example_start col).
Defined.

Lemma daily_return_normalize_witness :
  ∃ df', normalize prices_example = Returns df'
         ∧ daily_return df' = daily_return prices_example.
Proof.
  apply (daily_return_normalize prices_example prices_example_wf).
  intros col s Hin _. unfold prices_example in Hin.
  repeat (apply elem_of_cons in Hin as [Hin|Hin]); simplify_eq;
    try (split; [discriminate|]; intros v Hv;
         repeat (apply elem_of_cons in Hv as [->|Hv]);
         try (eexists; split; [reflexivity|compute_done]);
         by apply elem_of_nil in Hv).
  by apply elem_of_nil in Hin.
Defined.

Lemma daily_return_price_round_trip_witness :
  ∃ r : Qc, (Fin <$> asset_returns) !! 1%nat = Some (Fin r)
            ∧ Qc_of_Z 110 = Qc_of_Z 100 * (1 + r / Qc_of_Z 100).
Proof.
  assert (daily_return prices_example = Returns returns_example) as Hrun
    by compute_done.
  assert (Qc_of_Z 100 ≠ 0) as Hprice by compute_done.
  exact (daily_return_price_round_trip prices_example returns_example 1 "asset"
           [of_Z 100; of_Z 110; of_Z 99] (Fin <$> asset_returns)
           prices_example_wf Hrun eq_refl eq_refl ltac:(discriminate)
           0%nat (Qc_of_Z 110) (Qc_of_Z 100) eq_refl eq_refl Hprice).
Defined.


Lemma calculate_beta_row_order_witness :
  calculate_beta returns_example "asset" = calculate_beta returns_swapped "asset".
Proof.
  apply (calculate_beta_row_order returns_example returns_swapped "asset"
           market_returns asset_returns
           [qc 5 1; qc 0 1; qc (-4) 1] [qc 10 1; qc 0 1; qc (-10) 1]).
  - reflexivity.
  - reflexivity.
  - reflexivity.
  - reflexivity.
  - reflexivity.
  - reflexivity.
  - apply perm_swap.
  - compute_done.
Defined.

Lemma calculate_beta_affine_witness :
  ∃ b a : Qc,
    calculate_beta leveraged_example "asset" = Returns (Fin b, Fin a) ∧
    calculate_beta leveraged_example "leveraged"
    = Returns (Fin (2 * b), Fin (2 * a + qc 3 1)).
Proof.
  apply (calculate_beta_affine leveraged_example "asset" "leveraged"
           market_returns asset_returns 2 (qc 3 1)).
  - reflexivity.
  - reflexivity.
  - reflexivity.
  - reflexivity.
  - exact market_returns_well_conditioned.
Defined.

Lemma get_risk_interpretation_monotone_witness :
  ∃ i j,
    risk_level (get_risk_interpretation (Fin (qc 1 2))).1 = Some i ∧
    risk_level (get_risk_interpretation (Fin (qc 13 10))).1 = Some j ∧
    (i ≤ j)%nat.
Proof.
  apply (get_risk_interpretation_monotone (Fin (qc 1 2)) (Fin (qc 13 10))).
  compute_done.
Defined.

Lemma beta_alpha_loop_fitted_witness :
  [("asset", Fin (qc 135 61))].*1
  = filter (λ stock, stock ∈ columns returns_example) ["asset"] ∧
  [("asset", Fin (qc (-45) 61))].*1 = [("asset", Fin (qc 135 61))].*1 ∧
  Forall2 (fitted returns_example)
    [("asset", Fin (qc 135 61))] [("asset", Fin (qc (-45) 61))].
Proof.
  apply (beta_alpha_loop_fitted returns_example ["asset"]).
  - apply NoDup_singleton.
  - compute_done.
Defined.

Lemma portfolio_summary_nan_beta_witness :
  ∃ s, portfolio_summary ["A"; "B"] [("A", Fin 1); ("B", NaN)] [Fin 1; NaN]
       = Returns s
       ∧ avg_beta s = NaN ∧ portfolio_insight s = Balanced.
Proof.
  apply (portfolio_summary_nan_beta ["A"; "B"] [("A", Fin 1); ("B", NaN)]).
  - set_solver.
  - discriminate.
Defined.

Lemma return_value_rounding_witness :
  ∃ r, return_value rf (Fin (qc 84 1)) [("asset", Fin (qc 135 61))] !! 0%nat
       = Some (Fin r)
       ∧ qc 135 61 * qc 84 1 - qc 1 200 ≤ r
       ∧ r ≤ qc 135 61 * qc 84 1 + qc 1 200.
Proof.
  apply (return_value_rounding [("asset", Fin (qc 135 61))] (qc 84 1)
           0%nat "asset" (qc 135 61)).
  reflexivity.
Defined.

Lemma avg_return_rounding_witness :
  let betas := [("A", qc 8 10); ("B", qc 135 61)] in
  let beta : dict num := (λ p, (p.1, Fin p.2)) <$> betas in
  let exact : list Qc := (λ p, p.2 * qc 84 1) <$> betas in
  ∃ s r, portfolio_summary ["A"; "B"] beta (return_value rf (Fin (qc 84 1)) beta)
         = Returns s ∧
    avg_return s = Fin r ∧
    qsum exact / rows exact - qc 1 200 ≤ r ∧
    r ≤ qsum exact / rows exact + qc 1 200.
Proof.
  apply (avg_return_rounding ["A"; "B"] [("A", qc 8 10); ("B", qc 135 61)]
           (qc 84 1)).
  discriminate.
Defined.

Lemma capm_analysis_shape_witness :
  ∃ stocks_daily_return,
    daily_return prices_example = Returns stocks_daily_return ∧
    [("asset", Fin (qc 135 61))].*1 = valid_stocks prices_example ∧
    [("asset", Fin (qc (-45) 61))].*1 = valid_stocks prices_example ∧
    Forall2 (fitted stocks_daily_return)
      [("asset", Fin (qc 135 61))] [("asset", Fin (qc (-45) 61))] ∧
    length [Fin (qc 18590 100)] = length [("asset", Fin (qc 135 61))] ∧
    [("asset", Fin (qc 135 61))] ≠ [] ∧
    number_of_stocks {| avg_beta := Fin (qc 135 61);
                        avg_return := Fin (qc 18590 100);
                        number_of_stocks := 1;
                        portfolio_insight := Aggressive |}
    = length ["asset"].
Proof.
  apply (capm_analysis_shape ["asset"] prices_example
           [("asset", Fin (qc 135 61))] [("asset", Fin (qc (-45) 61))]
           [Fin (qc 18590 100)] _ prices_example_wf).
  compute_done.
Defined.

Lemma single_row_wf : wf_frame single_row.
Proof. unfold wf_frame, columns. compute_done. Defined.

Lemma calculate_beta_single_row_witness :
  calculate_beta single_row_returns "AAPL" = lstsq_on_nan [Fin 0] [Fin 0].
Proof.
  apply (calculate_beta_single_row single_row single_row_returns "AAPL"
           single_row_wf).
  - intros col s Hin. unfold single_row in Hin.
    repeat (apply elem_of_cons in Hin as [Hin|Hin]); simplify_eq; try done.
    by apply elem_of_nil in Hin.
  - compute_done.
  - unfold columns, single_row. set_solver.
  - unfold columns, single_row. set_solver.
  - discriminate.
Defined.

Lemma interactive_plot_traces_witness :
  ∃ added,
    interactive_plot prices_example
    = Returns (px_line_trace :: (add_scatter <$> added)) ∧
    scatter_name <$> added = filter (λ c, c ≠ "Date") (columns prices_example) ∧
    ∀ t, t ∈ added →
      scatter_x t = [of_Z 1; of_Z 2; of_Z 3] ∧ scatter_mode t = "lines" ∧
      (scatter_name t, scatter_y t) ∈ prices_example.
Proof.
  apply (interactive_plot_traces prices_example [of_Z 1; of_Z 2; of_Z 3]
           prices_example_wf).
  reflexivity.
Defined.

Lemma interactive_plot_no_date_witness :
  interactive_plot line_example = Raises "KeyError".
Proof.
  rewrite (interactive_plot_no_date line_example).
  - by rewrite decide_False.
  - unfold columns, line_example. set_solver.
Defined.

Lemma price_charts_traces_witness :
  ∃ absolute normalized,
    price_charts prices_example
    = Returns (px_line_trace :: (add_scatter <$> absolute),
               px_line_trace :: (add_scatter <$> normalized)) ∧
    scatter_name <$> absolute = valid_stocks prices_example ∧
    scatter_name <$> normalized = valid_stocks prices_example ∧
    (∀ t, t ∈ absolute → (scatter_name t, scatter_y t) ∈ prices_example) ∧
    (∀ t, t ∈ normalized → scatter_y t !! 0%nat = Some (Fin 1)).
Proof.
  apply (price_charts_traces prices_example prices_example_wf).
  - unfold columns, prices_example. set_solver.
  - intros col s Hin _ _. by apply (prices_example_start col).
Defined.


Lemma load_stocks_spec_witness :
  ["asset"]
  = filter (λ s, loads (download_of prices_example) s = true) ["asset"; "bond"]
  ∧ Forall2 (λ s df, prepare_yfinance_data (download_of prices_example s) s
                     = Returns df)
      ["asset"] [[("Date", [of_Z 1; of_Z 2; of_Z 3]);
                  ("asset", [of_Z 100; of_Z 110; of_Z 99])]].
Proof.
  apply (load_stocks_spec (download_of prices_example) ["asset"; "bond"]).
  - compute_done.
  - compute_done.
Defined.

(** The literals [0.79], [0.8] and [1.2] and their doubles: each within half
    a unit in the last place, [0.8] rounded up and [1.2] rounded down. *)
Example doubles_of_literals :
  (qc 8 10 < double_0_8 ∧ double_0_8 - qc 8 10 < qc 1 18014398509481984) ∧
  (double_1_2 < qc 12 10 ∧ qc 12 10 - double_1_2 < qc 1 9007199254740992) ∧
  (qc 79 100 < double_0_79 ∧ double_0_79 - qc 79 100 < qc 1 18014398509481984).
Proof. repeat split; compute_done. Qed.




Example script_quotes_example :
  script provider_example day_example 1 ["AAPL"; "NFLX"]
  = Ran ([("AAPL", Fin (qc 135 61))], [("AAPL", Fin (qc (-45) 61))],
         [Fin (qc 18590 100)],
         {| avg_beta := Fin (qc 135 61);
            avg_return := Fin (qc 18590 100);
            number_of_stocks := 1;
            portfolio_insight := Aggressive |}).
Proof. compute_done. Qed.

(** On 29 February the start date [year] years before does not exist,
    unless that year is a leap year too. *)
Example script_leap_day :
  script provider_example leap_day 1 ["AAPL"] = Uncaught "ValueError" ∧
  script provider_example leap_day 4 ["AAPL"]
  = script provider_example day_example 1 ["AAPL"].
Proof. split; compute_done. Qed.
